(** * VideoGen: the rule-based script segmenter and the project assembler

    A shallow embedding of [videogen/script_utils.py], of
    [SegmentPlan.from_dict] in [videogen/openai_utils.py] and of
    [create_project_segments] in [videogen/project.py], with the
    properties of the specification stated over it.

    Python values are modelled as follows.
    - A [str] is the list of its Unicode code points ([pystr]); [len],
      slicing and [find] count code points, as Python does.
    - An [int] is a [Z].
    - A call that can raise returns an [outcome]: [Returns v] or
      [Raises e].
    - The whitespace class shared by [str.strip], [str.split] and the
      regex class [\s] is the fixed list of CPython's
      [_PyUnicode_IsWhitespace].
    - The alphanumeric class behind [\w] and the case mapping behind
      [str.lower] are given for the ASCII range (CPython's ASCII path);
      beyond it they come from the Unicode character database, which is
      not part of the repository and is taken as a parameter
      ([ucd_isalnum], [ucd_lower]).

    The code around the Segmenter is embedded as well: the video id of
    [videogen/youtube.py], [VideoGenConfig.from_environment], the part
    of [generate_script_outline] that reads the model's answer, and the
    driver [build_project_from_plans]. Their collaborators (web
    services, the file system, the media library) are parameters, and a
    call with effects maps the world before it to its result and the
    world after it. *)

From Stdlib Require Import String Ascii DecimalString.
From Stdlib Require Import List ZArith NArith Lia Bool Sorted Permutation.
Import ListNotations.

(** ** Python builtins used by the three source files *)

Module Py.

Definition char := N.
Definition pystr := list char.

(** ASCII literal of the source as a list of code points. *)
Definition str (s : string) : pystr :=
  map N_of_ascii (list_ascii_of_string s).

Definition NL : char := 10%N.
Definition SP : char := 32%N.

Fixpoint str_eqb (a b : pystr) : bool :=
  match a, b with
  | [], [] => true
  | x :: a', y :: b' => N.eqb x y && str_eqb a' b'
  | _, _ => false
  end.

(** [len(x)] *)
Definition len {A} (l : list A) : Z := Z.of_nat (length l).

(** Exceptions the modelled code can raise. *)
Inductive exn := IndexError | TypeError.

Inductive outcome (A : Type) :=
| Returns (a : A)
| Raises (e : exn).
Arguments Returns {A} a.
Arguments Raises {A} e.

Definition bind {A B} (m : outcome A) (k : A -> outcome B) : outcome B :=
  match m with
  | Returns a => k a
  | Raises e => Raises e
  end.

(** [str.isspace] of one code point; also the regex class [\s]. *)
Definition isspace (c : char) : bool :=
  ((9 <=? c) && (c <=? 13) || (28 <=? c) && (c <=? 32)
   || (c =? 133) || (c =? 160) || (c =? 5760)
   || (8192 <=? c) && (c <=? 8202)
   || (c =? 8232) || (c =? 8233) || (c =? 8239) || (c =? 8287)
   || (c =? 12288))%N.

Definition is_ascii (c : char) : bool := (c <? 128)%N.
Definition ascii_isdigit (c : char) : bool := ((48 <=? c) && (c <=? 57))%N.
Definition ascii_isupper (c : char) : bool := ((65 <=? c) && (c <=? 90))%N.
Definition ascii_islower (c : char) : bool := ((97 <=? c) && (c <=? 122))%N.
Definition ascii_isalnum (c : char) : bool :=
  ascii_isdigit c || ascii_isupper c || ascii_islower c.
Definition ascii_tolower (c : char) : char :=
  if ascii_isupper c then (c + 32)%N else c.

Fixpoint lstrip (s : pystr) : pystr :=
  match s with
  | [] => []
  | c :: rest => if isspace c then lstrip rest else s
  end.

(** [s.strip()] *)
Definition strip (s : pystr) : pystr := rev (lstrip (rev (lstrip s))).

(** [s.replace(old, new)] for one-character [old] and [new]. *)
Definition replace_char (old new : char) (s : pystr) : pystr :=
  map (fun c => if N.eqb c old then new else c) s.

Fixpoint startswith (sub s : pystr) : bool :=
  match sub, s with
  | [], _ => true
  | x :: sub', y :: s' => N.eqb x y && startswith sub' s'
  | _ :: _, [] => false
  end.

Fixpoint find_from (i : Z) (sub s : pystr) : Z :=
  if startswith sub s then i
  else match s with
       | [] => -1
       | _ :: rest => find_from (i + 1) sub rest
       end.

(** [s.find(sub)]: lowest index of [sub] in [s], or [-1]. *)
Definition find (s sub : pystr) : Z := find_from 0 sub s.

(** [x[:stop]] for a list or string: a negative [stop] counts from the
    end, and the bounds are clamped; slicing never raises. *)
Definition slice_to {A} (l : list A) (stop : Z) : list A :=
  let n := len l in
  let stop' := if (stop <? 0)%Z then Z.max 0 (stop + n) else Z.min stop n in
  firstn (Z.to_nat stop') l.

(** [x[i]]: raises [IndexError] out of range. *)
Definition getitem {A} (l : list A) (i : Z) : outcome A :=
  let j := if (i <? 0)%Z then (i + len l)%Z else i in
  if (j <? 0)%Z then Raises IndexError
  else match nth_error l (Z.to_nat j) with
       | Some x => Returns x
       | None => Raises IndexError
       end.

(** [s.split()]: the maximal runs of non-whitespace; [cur] is the run
    being read, newest character first. *)
Definition flush (cur : pystr) : list pystr :=
  match cur with
  | [] => []
  | _ => [rev cur]
  end.

Fixpoint split_ws_from (cur : pystr) (s : pystr) : list pystr :=
  match s with
  | [] => flush cur
  | c :: rest =>
      if isspace c then flush cur ++ split_ws_from [] rest
      else split_ws_from (c :: cur) rest
  end.

Definition split (s : pystr) : list pystr := split_ws_from [] s.

(** [sep.join(words)] *)
Fixpoint join (sep : pystr) (words : list pystr) : pystr :=
  match words with
  | [] => []
  | [w] => w
  | w :: rest => w ++ sep ++ join sep rest
  end.

(** [str(n)] for an int, as an f-string renders it. *)
Definition str_of_int (n : Z) : pystr :=
  str (NilZero.string_of_int (Z.to_int n)).

(** [enumerate(l, start)] *)
Fixpoint enumerate {A} (start : Z) (l : list A) : list (Z * A) :=
  match l with
  | [] => []
  | x :: rest => (start, x) :: enumerate (start + 1) rest
  end.

(** [re.sub(r"\s+", repl, s)]: every maximal whitespace run becomes
    [repl]; [in_run] tells that the run was already replaced. *)
Fixpoint re_sub_spaces_from (in_run : bool) (repl s : pystr) : pystr :=
  match s with
  | [] => []
  | c :: rest =>
      if isspace c then
        (if in_run then [] else repl) ++ re_sub_spaces_from true repl rest
      else c :: re_sub_spaces_from false repl rest
  end.

Definition re_sub_spaces (repl s : pystr) : pystr :=
  re_sub_spaces_from false repl s.

(** [re.split(r"\n{2,}", s)]: the pieces between the maximal runs of two
    or more newlines (a lone newline stays in its piece). [cur] is the
    piece being read, newest character first; [in_sep] tells that the
    scan is inside a separator. *)
Fixpoint re_split_newlines_from (cur : pystr) (in_sep : bool) (s : pystr)
  : list pystr :=
  match s with
  | [] => [rev cur]
  | c :: rest =>
      if N.eqb c NL then
        if in_sep then re_split_newlines_from cur true rest
        else match rest with
             | c' :: _ =>
                 if N.eqb c' NL
                 then rev cur :: re_split_newlines_from [] true rest
                 else re_split_newlines_from (c :: cur) false rest
             | [] => re_split_newlines_from (c :: cur) false rest
             end
      else re_split_newlines_from (c :: cur) false rest
  end.

Definition re_split_newlines (s : pystr) : list pystr :=
  re_split_newlines_from [] false s.

(** [re.findall(cls+, s)] for a character class [cls]: the maximal runs
    of characters of the class, left to right. *)
Fixpoint re_findall_runs_from (cls : char -> bool) (cur : pystr) (s : pystr)
  : list pystr :=
  match s with
  | [] => flush cur
  | c :: rest =>
      if cls c then re_findall_runs_from cls (c :: cur) rest
      else flush cur ++ re_findall_runs_from cls [] rest
  end.

Definition re_findall_runs (cls : char -> bool) (s : pystr) : list pystr :=
  re_findall_runs_from cls [] s.

(** [collections.Counter]: a dict from element to count, in insertion
    order (the order in which the elements were first seen). *)
Definition Counter := list (pystr * Z).

Fixpoint counter_incr (w : pystr) (counts : Counter) : Counter :=
  match counts with
  | [] => [(w, 1%Z)]
  | (k, v) :: rest =>
      if str_eqb k w then (k, (v + 1)%Z) :: rest
      else (k, v) :: counter_incr w rest
  end.

(** [Counter(iterable)] *)
Definition counter_of (words : list pystr) : Counter :=
  fold_left (fun counts w => counter_incr w counts) words [].

(** [sorted(items, key=count, reverse=True)]: stable, so items of equal
    count keep their order. *)
Fixpoint insert_by_count (x : pystr * Z) (sorted : Counter) : Counter :=
  match sorted with
  | [] => [x]
  | y :: rest =>
      if (snd x <? snd y)%Z then y :: insert_by_count x rest
      else x :: sorted
  end.

Definition sorted_by_count_desc (items : Counter) : Counter :=
  fold_right insert_by_count [] items.

(** [counts.most_common(n)] is [heapq.nlargest(n, counts.items(),
    key=itemgetter(1))], that is
    [sorted(counts.items(), key=itemgetter(1), reverse=True)[:n]],
    and the empty list for [n <= 0]. *)
Definition most_common (counts : Counter) (n : Z) : Counter :=
  firstn (Z.to_nat n) (sorted_by_count_desc counts).

End Py.

Import Py.

(** [str.isalnum] of one code point and [str.lower], over the Unicode
    character database. CPython answers both from ASCII tables for ASCII
    input; [ucd_isalnum] and [ucd_lower] stand for the database lookups
    on the rest. *)
Section UnicodeDatabase.

Variable ucd_isalnum : char -> bool.
Variable ucd_lower : pystr -> pystr.

Definition isalnum (c : char) : bool :=
  if is_ascii c then ascii_isalnum c else ucd_isalnum c.

Definition lower (s : pystr) : pystr :=
  if forallb is_ascii s then map ascii_tolower s else ucd_lower s.

End UnicodeDatabase.

(** ** videogen/openai_utils.py *)

Module openai_utils.

(** A binary64 value, kept by its bit pattern; the modelled code only
    passes floats along. *)
Inductive float := Float (bits : Z).

(** The values [json.loads] produces, which is what the [Any] of
    [Dict[str, Any]] ranges over. A dict keeps its insertion order. *)
#[local] Unset Elimination Schemes.
Inductive pyval :=
| PyNone
| PyBool (b : bool)
| PyInt (n : Z)
| PyFloat (f : float)
| PyStr (s : pystr)
| PyList (items : list pyval)
| PyDict (entries : list (pystr * pyval)).
#[local] Set Elimination Schemes.

Definition pydict := list (pystr * pyval).

(** [data.get(key, default)] *)
Fixpoint dict_get (data : pydict) (key : pystr) (default : pyval) : pyval :=
  match data with
  | [] => default
  | (k, v) :: rest => if str_eqb k key then v else dict_get rest key default
  end.

(** [key in data] *)
Definition dict_has (data : pydict) (key : pystr) : bool :=
  existsb (fun kv => str_eqb (fst kv) key) data.

(** [list(v)]: the elements of an iterable; [TypeError] for a value that
    is not iterable. *)
Definition list_of (v : pyval) : outcome (list pyval) :=
  match v with
  | PyStr s => Returns (map (fun c => PyStr [c]) s)
  | PyList items => Returns items
  | PyDict entries => Returns (map (fun kv => PyStr (fst kv)) entries)
  | PyNone | PyBool _ | PyInt _ | PyFloat _ => Raises TypeError
  end.

(** The dataclass. Python does not check the field annotations, so a
    field holds whatever value the constructor was given. *)
Record SegmentPlan := {
  title : pyval;
  summary : pyval;
  script : pyval;
  keywords : list pyval
}.

Definition from_dict (data : pydict) : outcome SegmentPlan :=
  let title := dict_get data (str "title") (PyStr (str "Unnamed")) in
  let summary := dict_get data (str "summary") (PyStr (str "")) in
  let script := dict_get data (str "script") (PyStr (str "")) in
  bind (list_of (dict_get data (str "keywords") (PyList [])))
       (fun keywords =>
          Returns {| title := title; summary := summary;
                     script := script; keywords := keywords |}).

End openai_utils.

(** ** videogen/script_utils.py *)

Module script_utils.
Import openai_utils.

Definition _STOPWORDS : list pystr :=
  [ str "and"; str "the"; str "for"; str "with"; str "that"; str "from";
    str "this"; str "have"; str "your"; str "into"; str "about";
    str "when"; str "where"; str "while"; str "then"; str "over";
    str "such"; str "very"; str "just"; str "because"; str "however";
    str "also"; str "like"; str "but"; str "are"; str "was"; str "were";
    str "you"; str "they"; str "them"; str "our"; str "their"; str "not";
    str "bir"; str "ile"; str "ama"; str "gibi"; str "ve"; str "de";
    str "da"; str "bu"; str "olan"; str "kadar";
    231%N :: str "ok";                      (* U+00E7 o k *)
    str "daha";
    str "i" ++ 231%N :: str "in";           (* i U+00E7 i n *)
    str "icin";
    str "hen" ++ 252%N :: str "z" ].        (* h e n U+00FC z *)

(** [word in _STOPWORDS] *)
Definition in_stopwords (word : pystr) : bool :=
  existsb (str_eqb word) _STOPWORDS.

(** The letters listed in the character class next to [\w]:
    U+00E7 U+011F U+0131 U+00F6 U+015F U+00FC and
    U+00C7 U+011E U+0130 U+00D6 U+015E U+00DC. *)
Definition turkish_letters : list char :=
  [231; 287; 305; 246; 351; 252; 199; 286; 304; 214; 350; 220]%N.

Definition _clean_sentence (text : pystr) : pystr :=
  let sentence := replace_char NL SP (strip text) in
  re_sub_spaces (str " ") sentence.

(** The [for delimiter in [...]] loop of [_extract_summary], with its
    [return] inside the loop and the final [return] after it. *)
Fixpoint summary_loop (cleaned : pystr) (delimiters : list pystr) : pystr :=
  match delimiters with
  | [] => slice_to cleaned 200
  | delimiter :: rest =>
      let index := find cleaned delimiter in
      if negb (index =? -1)%Z then slice_to cleaned (index + 1)
      else summary_loop cleaned rest
  end.

Definition _extract_summary (text : pystr) : pystr :=
  let cleaned := _clean_sentence text in
  summary_loop cleaned [str "."; str "!"; str "?"].

Definition _title_from_text (text : pystr) (fallback_index : Z) : pystr :=
  let cleaned := _clean_sentence text in
  match cleaned with
  | [] => str "Segment " ++ str_of_int fallback_index
  | _ =>
      let words := split cleaned in
      let snippet := strip (join (str " ") (slice_to words 6)) in
      match snippet with
      | [] => str "Segment " ++ str_of_int fallback_index
      | _ => snippet
      end
  end.

(** [[chunk.strip() for chunk in re.split(r"\n{2,}", script_text)
      if chunk.strip()]] *)
Definition chunks_of (script_text : pystr) : list pystr :=
  map strip
      (filter (fun chunk => match strip chunk with [] => false | _ => true end)
              (re_split_newlines script_text)).

Section Segmenter.

Variable ucd_isalnum : char -> bool.
Variable ucd_lower : pystr -> pystr.

(** The class [[\w...]] of the keyword pattern: [\w] is alphanumeric or
    underscore. *)
Definition word_class (c : char) : bool :=
  isalnum ucd_isalnum c || N.eqb c 95 || existsb (N.eqb c) turkish_letters.

Definition _keyword_candidates (text : pystr) : list pystr :=
  let words := re_findall_runs word_class (lower ucd_lower text) in
  filter (fun word => (2 <? len word)%Z && negb (in_stopwords word)) words.

Definition _extract_keywords (text : pystr) (limit : Z) : list pystr :=
  let candidates := _keyword_candidates text in
  match candidates with
  | [] => []
  | _ =>
      let counts := counter_of candidates in
      map fst (most_common counts limit)
  end.

(** One turn of the loop of [build_plans_from_script]. *)
Definition plan_of_chunk (index : Z) (chunk : pystr) : SegmentPlan :=
  let summary := _extract_summary chunk in
  let keywords := _extract_keywords chunk 5 in
  let title := _title_from_text summary index in
  {| title := PyStr title;
     summary := PyStr summary;
     script := PyStr (_clean_sentence chunk);
     keywords := map PyStr keywords |}.

Definition build_plans_from_script (script_text : pystr) : list SegmentPlan :=
  let chunks := chunks_of script_text in
  match chunks with
  | [] => []
  | _ =>
      fold_left
        (fun plans '(index, chunk) => plans ++ [plan_of_chunk index chunk])
        (enumerate 1 chunks) []
  end.

End Segmenter.

End script_utils.

(** ** videogen/project.py *)

Module project.
Import openai_utils.

Definition Path := pystr.

Record ProjectSegment := {
  index : Z;
  title : pyval;
  summary : pyval;
  script : pyval;
  keywords : list pyval;
  speech_path : Path;
  video_path : option Path;
  duration : float
}.

(** The loop of [create_project_segments] over [enumerate(plans)];
    [segments] is the list built so far. *)
Fixpoint segments_loop (speech_paths : list Path)
    (video_paths : list (option Path)) (durations : list float)
    (items : list (Z * SegmentPlan)) (segments : list ProjectSegment)
  : outcome (list ProjectSegment) :=
  match items with
  | [] => Returns segments
  | (index, plan) :: rest =>
      bind (getitem speech_paths index) (fun speech_path =>
      bind (getitem video_paths index) (fun video_path =>
      bind (getitem durations index) (fun duration =>
        segments_loop speech_paths video_paths durations rest
          (segments ++
           [ {| index := index;
                title := plan.(openai_utils.title);
                summary := plan.(openai_utils.summary);
                script := plan.(openai_utils.script);
                keywords := plan.(openai_utils.keywords);
                speech_path := speech_path;
                video_path := video_path;
                duration := duration |} ]))))
  end.

Definition create_project_segments (plans : list SegmentPlan)
    (speech_paths : list Path) (video_paths : list (option Path))
    (durations : list float) : outcome (list ProjectSegment) :=
  segments_loop speech_paths video_paths durations (enumerate 0 plans) [].

Record VideoProject := {
  name : pystr;
  segments : list ProjectSegment;
  render_path : Path
}.

(** [ProjectSegment.to_dict]: [asdict] lists the fields in declaration
    order; the two path entries are then overwritten in place, the
    speech path by its string and the video path by its string or
    [None]. A [Path] is modelled by its string, and a [Path] object is
    always true. *)
Definition ProjectSegment_to_dict (self : ProjectSegment) : pydict :=
  [ (str "index", PyInt self.(index));
    (str "title", self.(title));
    (str "summary", self.(summary));
    (str "script", self.(script));
    (str "keywords", PyList self.(keywords));
    (str "speech_path", PyStr self.(speech_path));
    (str "video_path",
      match self.(video_path) with
      | Some video_path => PyStr video_path
      | None => PyNone
      end);
    (str "duration", PyFloat self.(duration)) ].

(** [VideoProject.to_dict] *)
Definition VideoProject_to_dict (self : VideoProject) : pydict :=
  [ (str "name", PyStr self.(name));
    (str "render_path", PyStr self.(render_path));
    (str "segments",
      PyList (map (fun segment => PyDict (ProjectSegment_to_dict segment))
                  self.(segments))) ].

End project.

(** ** Vocabulary of the properties *)

Import openai_utils script_utils project.

Definition DOT : char := 46%N.
Definition BANG : char := 33%N.
Definition QUESTION : char := 63%N.

(** [summary] is [cleaned] cut just after its first [d]. *)
Definition cut_after_first (d : char) (cleaned summary : pystr) : Prop :=
  exists pre post,
    cleaned = pre ++ d :: post /\ ~ In d pre /\ summary = pre ++ [d].

(** [prefix_of a b]: [a] is an initial segment of [b]. *)
Definition prefix_of (a b : pystr) : Prop := exists rest, b = a ++ rest.

(** Position of the first [d] in [s], if there is one. *)
Fixpoint first_index (d : char) (s : pystr) : option nat :=
  match s with
  | [] => None
  | c :: rest =>
      if N.eqb c d then Some 0
      else option_map S (first_index d rest)
  end.

Definition min_index (a b : option nat) : option nat :=
  match a, b with
  | Some i, Some j => Some (Nat.min i j)
  | Some i, None => Some i
  | None, b => b
  end.

(** The summary as the specification words it: each delimiter is looked
    up on its own and the smallest index found decides the cut. *)
Definition summary_at_earliest_delimiter (text : pystr) : pystr :=
  let cleaned := _clean_sentence text in
  let earliest :=
    min_index (first_index DOT cleaned)
              (min_index (first_index BANG cleaned)
                         (first_index QUESTION cleaned)) in
  match earliest with
  | Some i => firstn (S i) cleaned
  | None => firstn 200 cleaned
  end.

(** Number of times [w] occurs among [words]. *)
Fixpoint occurrences (w : pystr) (words : list pystr) : nat :=
  match words with
  | [] => 0
  | x :: rest => (if str_eqb x w then 1 else 0) + occurrences w rest
  end.

(** Position at which [w] first appears among [words] (their number
    when it does not appear). *)
Fixpoint first_seen (w : pystr) (words : list pystr) : nat :=
  match words with
  | [] => 0
  | x :: rest => if str_eqb x w then 0 else S (first_seen w rest)
  end.

(** [a] comes before [b] in the keyword order: it occurs more often, or
    as often and it was seen first. *)
Definition ranks_before (words : list pystr) (a b : pystr) : Prop :=
  occurrences b words < occurrences a words \/
  (occurrences a words = occurrences b words /\
   first_seen a words < first_seen b words).

(** [tok] is a maximal run of characters of the class [cls] in [s]: a
    non-empty stretch of [s], all in the class, with no character of the
    class just before it or just after it. *)
Definition maximal_run (cls : char -> bool) (s tok : pystr) : Prop :=
  tok <> [] /\
  Forall (fun c => cls c = true) tok /\
  exists pre post,
    s = pre ++ tok ++ post /\
    (forall c, hd_error (rev pre) = Some c -> cls c = false) /\
    (forall c, hd_error post = Some c -> cls c = false).

(** [k] is a stretch of [s]. *)
Definition stretch_of (k s : pystr) : Prop :=
  exists pre post, s = pre ++ k ++ post.

(** [list(v)] succeeds on [v]. *)
Definition iterable (v : pyval) : bool :=
  match v with
  | PyStr _ | PyList _ | PyDict _ => true
  | PyNone | PyBool _ | PyInt _ | PyFloat _ => false
  end.

(** [counts] is the counter of [words]: one entry per distinct word, in
    the order the words were first seen, each with its number of
    occurrences. *)
Definition counts_words (words : list pystr) (counts : Counter) : Prop :=
  (forall k, In k (map fst counts) <-> In k words) /\
  (forall k v, In (k, v) counts -> v = Z.of_nat (occurrences k words)) /\
  StronglySorted
    (fun a b => first_seen a words < first_seen b words) (map fst counts).

(** The keyword order on counter items. *)
Definition item_before (words : list pystr) (x y : pystr * Z) : Prop :=
  ranks_before words (fst x) (fst y).

(** The character database cut down to ASCII: no alphanumeric character
    and no case mapping beyond ASCII. On ASCII strings the Segmenter does
    not consult the database, so any instance gives CPython's result
    there; this one is used to run the model on sample inputs. *)
Definition ascii_only_isalnum : char -> bool := fun _ => false.
Definition ascii_only_lower : pystr -> pystr := map ascii_tolower.

(** ** Exceptions and effects of the code around the Segmenter *)

Module effects.

(** What a call can raise: a builtin's [IndexError] or [TypeError], the
    [AttributeError] of a method looked up on a value that lacks it, the
    two exceptions the repository raises itself, and whatever a
    collaborator (a web API, the file system, the media library)
    raises. *)
Inductive pyerror :=
| Builtin (e : exn)
| AttributeError
| ValueError (message : pystr)
| EnvironmentError (message : pystr)
| External (what : pystr).

Inductive result (A : Type) :=
| Ok (a : A)
| Err (e : pyerror).
Arguments Ok {A} a.
Arguments Err {A} e.

Definition of_outcome {A} (o : outcome A) : result A :=
  match o with
  | Returns a => Ok a
  | Raises e => Err (Builtin e)
  end.

Definition result_bind {A B} (r : result A) (k : A -> result B) : result B :=
  match r with
  | Ok a => k a
  | Err e => Err e
  end.

(** A call with effects on the world outside (files, network): it maps
    the world before to its result and the world after; what was done
    before an exception stays done. *)
Definition action (World A : Type) : Type := World -> result A * World.

Definition ret {World A} (a : A) : action World A := fun w => (Ok a, w).

Definition raise {World A} (e : pyerror) : action World A :=
  fun w => (Err e, w).

Definition lift {World A} (r : result A) : action World A := fun w => (r, w).

Definition and_then {World A B} (m : action World A)
    (k : A -> action World B) : action World B :=
  fun w =>
    match m w with
    | (Ok a, w') => k a w'
    | (Err e, w') => (Err e, w')
    end.

End effects.

Import effects.

Declare Scope action_scope.
Delimit Scope action_scope with action.
Notation "x <- m ;; k" := (and_then m (fun x => k))
  (at level 61, m at next level, right associativity) : action_scope.
Notation "m ;; k" := (and_then m (fun _ => k))
  (at level 61, right associativity) : action_scope.

(** ** videogen/youtube.py *)

Module youtube.

Record VideoTranscript := {
  video_id : pystr;
  title : pystr;
  text : pystr
}.

(** The three alternatives of [_VIDEO_ID_RE] before the group. *)
Definition id_markers : list pystr :=
  [str "v="; str "youtu.be/"; str "youtube.com/embed/"].

Section VideoId.

Variable ucd_isalnum : char -> bool.

(** The class [[\w-]]: alphanumeric, underscore or hyphen. *)
Definition id_class (c : char) : bool :=
  isalnum ucd_isalnum c || N.eqb c 95 || N.eqb c 45.

(** The group [([\w-]{11})] at the start of [s]: exactly 11 characters
    of the class. *)
Definition id_group (s : pystr) : option pystr :=
  let group := firstn 11 s in
  if Nat.eqb (length group) 11 && forallb id_class group
  then Some group else None.

(** One alternative followed by the group, matched at the start of
    [s]. *)
Definition group_after (marker s : pystr) : option pystr :=
  if startswith marker s then id_group (skipn (length marker) s) else None.

(** The pattern matched at the start of [s]: the alternatives are tried
    in their order. *)
Fixpoint match_here (markers : list pystr) (s : pystr) : option pystr :=
  match markers with
  | [] => None
  | marker :: rest =>
      match group_after marker s with
      | Some group => Some group
      | None => match_here rest s
      end
  end.

(** [_VIDEO_ID_RE.search(url)]: the match at the leftmost position that
    has one; the result is its group 1. *)
Fixpoint re_search (s : pystr) : option pystr :=
  match match_here id_markers s with
  | Some group => Some group
  | None =>
      match s with
      | [] => None
      | _ :: rest => re_search rest
      end
  end.

Definition extract_video_id (url : pystr) : result pystr :=
  match re_search url with
  | None =>
      Err (ValueError (str "Could not determine video id for url: " ++ url))
  | Some group => Ok group
  end.

Variable World : Type.

(** [download_transcript(video_id)] calls the transcript service; it is
    taken as it is. *)
Variable download_transcript : pystr -> action World pystr.

(** The loop of [gather_transcripts]; [transcripts] is the list built so
    far. *)
Fixpoint gather_loop (urls : list pystr) (transcripts : list VideoTranscript)
  : action World (list VideoTranscript) :=
  match urls with
  | [] => ret transcripts
  | url :: rest =>
      (video_id <- lift (extract_video_id url) ;;
       text <- download_transcript video_id ;;
       gather_loop rest
         (transcripts ++
          [ {| video_id := video_id; title := video_id; text := text |} ]))%action
  end.

Definition gather_transcripts (urls : list pystr)
  : action World (list VideoTranscript) :=
  gather_loop urls [].

End VideoId.

Arguments gather_loop ucd_isalnum {World} download_transcript urls transcripts.
Arguments gather_transcripts ucd_isalnum {World} download_transcript urls.

End youtube.

(** ** videogen/config.py *)

Module config.
Import project.

Record VideoGenConfig := {
  openai_api_key : pystr;
  pexels_api_key : pystr;
  youtube_client_secret : Path;
  output_dir : Path;
  working_dir : Path;
  openai_model : pystr;
  openai_tts_model : pystr;
  openai_tts_voice : pystr
}.

(** [os.environ]: names to values, both strings. *)
Definition environ := list (pystr * pystr).

(** [os.environ.get(key)] *)
Fixpoint environ_get (env : environ) (key : pystr) : option pystr :=
  match env with
  | [] => None
  | (k, v) :: rest => if str_eqb k key then Some v else environ_get rest key
  end.

(** [os.environ.get(key, default)] *)
Definition environ_get_or (env : environ) (key default : pystr) : pystr :=
  match environ_get env key with
  | Some v => v
  | None => default
  end.

Section FileSystem.

Variable World : Type.

(** [Path(s)], as the string of the path it makes. *)
Variable make_path : pystr -> Path.

(** [path.mkdir(parents=True, exist_ok=True)] *)
Variable mkdir : Path -> action World unit.

(** [VideoGenConfig.from_environment()], reading the environment [env].
    [not key] holds for a variable that is unset and for one that is
    set to the empty string. *)
Definition from_environment (env : environ) : action World VideoGenConfig :=
  let openai_key := environ_get env (str "OPENAI_API_KEY") in
  let pexels_key := environ_get env (str "PEXELS_API_KEY") in
  let client_secret := environ_get env (str "YOUTUBE_CLIENT_SECRET") in
  let output_dir :=
    make_path (environ_get_or env (str "VIDEOGEN_OUTPUT_DIR") (str "output")) in
  let working_dir :=
    make_path (environ_get_or env (str "VIDEOGEN_WORKING_DIR") (str "working")) in
  match openai_key with
  | None | Some [] => raise (EnvironmentError (str "OPENAI_API_KEY must be set"))
  | Some openai_key =>
  match pexels_key with
  | None | Some [] => raise (EnvironmentError (str "PEXELS_API_KEY must be set"))
  | Some pexels_key =>
  match client_secret with
  | None | Some [] =>
      raise (EnvironmentError (str "YOUTUBE_CLIENT_SECRET must be set"))
  | Some client_secret =>
      (mkdir output_dir ;;
       mkdir working_dir ;;
       ret {| openai_api_key := openai_key;
              pexels_api_key := pexels_key;
              youtube_client_secret := make_path client_secret;
              output_dir := output_dir;
              working_dir := working_dir;
              openai_model :=
                environ_get_or env (str "VIDEOGEN_OPENAI_MODEL")
                               (str "gpt-4o-mini");
              openai_tts_model :=
                environ_get_or env (str "VIDEOGEN_OPENAI_TTS_MODEL")
                               (str "gpt-4o-mini-tts");
              openai_tts_voice :=
                environ_get_or env (str "VIDEOGEN_OPENAI_TTS_VOICE")
                               (str "alloy") |})%action
  end end end.

Definition ensure_directory (path : Path) : action World Path :=
  (mkdir path ;; ret path)%action.

End FileSystem.

Arguments from_environment {World} make_path mkdir env.
Arguments ensure_directory {World} mkdir path.

End config.

(** ** videogen/openai_utils.py: [OpenAIWorkflow.generate_script_outline] *)

Module openai_workflow.

Record OpenAIWorkflow := {
  model : pystr;
  tts_model : pystr;
  tts_voice : pystr
}.

(** [SegmentPlan.from_dict(item)] for an item of any kind: only a dict
    has the [get] method the constructor calls. *)
Definition from_dict_item (item : pyval) : result SegmentPlan :=
  match item with
  | PyDict data => of_outcome (from_dict data)
  | PyNone | PyBool _ | PyInt _ | PyFloat _ | PyStr _ | PyList _ =>
      Err AttributeError
  end.

(** The list comprehension over the items, left to right. *)
Fixpoint plans_of_items (items : list pyval) : result (list SegmentPlan) :=
  match items with
  | [] => Ok []
  | item :: rest =>
      result_bind (from_dict_item item) (fun plan =>
      result_bind (plans_of_items rest) (fun plans => Ok (plan :: plans)))
  end.

(** What [generate_script_outline] does with the parsed response. *)
Definition segments_of_parsed (parsed : pyval) : result (list SegmentPlan) :=
  match parsed with
  | PyDict data =>
      result_bind
        (of_outcome (list_of (dict_get data (str "segments") (PyList []))))
        (fun items =>
      result_bind (plans_of_items items) (fun segments =>
        match segments with
        | [] => Err (ValueError (str "OpenAI returned no segments"))
        | _ => Ok segments
        end))
  | PyNone | PyBool _ | PyInt _ | PyFloat _ | PyStr _ | PyList _ =>
      Err AttributeError
  end.

Definition system_prompt : pystr :=
  str "You are an assistant that creates structured video scripts. "
  ++ str "Return valid JSON with a list of segments under a 'segments' key. "
  ++ str "Each segment must include title, summary, script, and keywords array.".

Definition user_prompt (combined_text prompt : pystr) : pystr :=
  str "Original transcripts:" ++ [NL] ++ combined_text ++ [NL; NL]
  ++ str "Creative brief:" ++ [NL] ++ prompt ++ [NL; NL]
  ++ str "Respond with JSON only.".

Section Workflow.

Variable World : Type.

(** The request to the model: [client.responses.create(...)] for a model
    name, a system prompt and a user prompt, up to the text of the first
    output. *)
Variable responses_create : pystr -> pystr -> pystr -> action World pystr.

(** [json.loads]: the parsed value, or nothing on [JSONDecodeError]. *)
Variable json_loads : pystr -> option pyval.

Definition generate_script_outline (self : OpenAIWorkflow)
    (transcripts : list pystr) (prompt : pystr)
  : action World (list SegmentPlan) :=
  let combined_text := join [NL] transcripts in
  (content <- responses_create self.(model) system_prompt
                               (user_prompt combined_text prompt) ;;
   match json_loads content with
   | None => raise (ValueError (str "OpenAI response was not valid JSON"))
   | Some parsed => lift (segments_of_parsed parsed)
   end)%action.

End Workflow.

Arguments generate_script_outline {World} responses_create json_loads
  self transcripts prompt.

End openai_workflow.

(** ** videogen/pexels.py *)

Module pexels.
Import project.

Record PexelsVideo := {
  title : pyval;
  filepath : Path;
  duration : pyval
}.

Record PexelsClient := {
  api_key : pystr;
  download_dir : Path
}.

Section Client.

Variable World : Type.
Variable mkdir : Path -> action World unit.

(** [PexelsClient(api_key, download_dir)] *)
Definition PexelsClient_init (api_key : pystr) (download_dir : Path)
  : action World PexelsClient :=
  (download_dir <- config.ensure_directory mkdir download_dir ;;
   ret {| api_key := api_key; download_dir := download_dir |})%action.

(** [search_video] and [download_video] talk to the Pexels service. *)
Variable search_video : PexelsClient -> pyval -> action World (option pydict).
Variable download_video :
  PexelsClient -> pydict -> pyval -> action World PexelsVideo.

(** [search_and_download]: [not video] holds for [None] and for the
    empty dict. *)
Definition search_and_download (self : PexelsClient) (query : pyval)
  : action World (option PexelsVideo) :=
  (video <- search_video self query ;;
   match video with
   | None | Some [] => ret None
   | Some video =>
       downloaded <- download_video self video query ;;
       ret (Some downloaded)
   end)%action.

End Client.

Arguments PexelsClient_init {World} mkdir api_key download_dir.
Arguments search_and_download {World} search_video download_video self query.

End pexels.

(** ** videogen/cli.py *)

Module cli.
Import project config pexels.

(** [f"{index:02d}"]: the decimal digits, with a zero in front of a
    single digit. *)
Definition format_02d (n : Z) : pystr :=
  let digits := str_of_int n in
  if (len digits <? 2)%Z then str "0" ++ digits else digits.

(** The strings of a list, as [str.join] requires them: [TypeError] at
    the first item that is not a string. *)
Fixpoint strings_of (items : list pyval) : outcome (list pystr) :=
  match items with
  | [] => Returns []
  | PyStr s :: rest => bind (strings_of rest) (fun l => Returns (s :: l))
  | _ :: _ => Raises TypeError
  end.

(** [" ".join(plan.keywords) or plan.title] *)
Definition query_of (plan : SegmentPlan) : outcome pyval :=
  bind (strings_of plan.(openai_utils.keywords)) (fun words =>
    match join (str " ") words with
    | [] => Returns plan.(openai_utils.title)
    | joined => Returns (PyStr joined)
    end).

(** [a or b] for an optional string [a]. *)
Definition str_or (a : option pystr) (b : pystr) : pystr :=
  match a with
  | Some (c :: rest) => c :: rest
  | Some [] | None => b
  end.

Section Pipeline.

Variable World : Type.

(** [base / name] on paths. *)
Variable path_join : Path -> pystr -> Path.
Variable mkdir : Path -> action World unit.

(** The collaborators: speech synthesis, the duration of an audio file,
    the Pexels service, saving the project file, rendering and
    uploading. *)
Variable generate_speech : pyval -> Path -> action World Path.
Variable audio_duration : Path -> action World float.
Variable search_video : PexelsClient -> pyval -> action World (option pydict).
Variable download_video :
  PexelsClient -> pydict -> pyval -> action World PexelsVideo.
Variable save : VideoProject -> Path -> action World Path.
Variable render_project : list ProjectSegment -> Path -> action World Path.
Variable upload_video :
  Path -> pystr -> pystr -> Path -> Path -> pystr -> action World pyval.

(** The three lists the loop of [build_project_from_plans] fills. *)
Definition prepared : Type :=
  (list Path * list (option Path) * list float)%type.

(** The loop over [enumerate(plans)]. *)
Fixpoint prepare_loop (speech_dir : Path) (pexels_client : PexelsClient)
    (items : list (Z * SegmentPlan)) (lists : prepared)
  : action World prepared :=
  match items with
  | [] => ret lists
  | (index, plan) :: rest =>
      let '(speech_paths, video_paths, durations) := lists in
      let speech_path :=
        path_join speech_dir
                  (str "segment_" ++ format_02d index ++ str ".mp3") in
      (generate_speech plan.(openai_utils.script) speech_path ;;
       duration <- audio_duration speech_path ;;
       query <- lift (of_outcome (query_of plan)) ;;
       pexels_video <-
         search_and_download search_video download_video pexels_client query ;;
       let video_path :=
         match pexels_video with
         | Some video => Some video.(filepath)
         | None => None
         end in
       prepare_loop speech_dir pexels_client rest
         (speech_paths ++ [speech_path],
          video_paths ++ [video_path],
          durations ++ [duration]))%action
  end.

Definition build_project_from_plans (plans : list SegmentPlan)
    (brief : pystr) (config : VideoGenConfig) (project_name : pystr)
    (render upload : bool) (upload_title upload_description : option pystr)
    (privacy_status : pystr) : action World VideoProject :=
  let speech_dir := path_join config.(working_dir) (str "speech") in
  let video_dir := path_join config.(working_dir) (str "video") in
  (pexels_client <- PexelsClient_init mkdir config.(pexels_api_key) video_dir ;;
   lists <- prepare_loop speech_dir pexels_client (enumerate 0 plans)
                         ([], [], []) ;;
   let '(speech_paths, video_paths, durations) := lists in
   segments <-
     lift (of_outcome
             (create_project_segments plans speech_paths video_paths
                                      durations)) ;;
   let render_path :=
     path_join config.(output_dir) (project_name ++ str ".mp4") in
   let project :=
     {| project.name := project_name; project.segments := segments;
        project.render_path := render_path |} in
   let project_file :=
     path_join config.(output_dir) (project_name ++ str ".json") in
   save project project_file ;;
   (if render
    then render_project project.(project.segments) render_path ;; ret tt
    else ret tt) ;;
   (if upload
    then
      let upload_title := str_or upload_title project_name in
      let upload_description :=
        str_or upload_description
               (match brief with [] => project_name | _ => brief end) in
      let token_path :=
        path_join config.(working_dir) (str "youtube_token.json") in
      upload_video render_path upload_title upload_description
                   config.(youtube_client_secret) token_path privacy_status ;;
      ret tt
    else ret tt) ;;
   ret project)%action.

End Pipeline.

Arguments prepare_loop {World} path_join generate_speech audio_duration
  search_video download_video speech_dir pexels_client items lists.
Arguments build_project_from_plans {World} path_join mkdir generate_speech
  audio_duration search_video download_video save render_project upload_video
  plans brief config project_name render upload upload_title
  upload_description privacy_status.

End cli.

(** ** Vocabulary of the further properties *)

(** A word as [str.split] makes them: not empty and free of
    whitespace. *)
Definition no_space (w : pystr) : Prop :=
  Forall (fun c => isspace c = false) w.

Definition proper_word (w : pystr) : Prop := w <> [] /\ no_space w.

(** The words after the first of a joined line, each behind its
    space. *)
Definition spaced_tail (words : list pystr) : pystr :=
  flat_map (fun w => SP :: w) words.

(** [t] neither starts nor ends with whitespace. *)
Definition trimmed (t : pystr) : Prop :=
  (forall c, hd_error t = Some c -> isspace c = false) /\
  (forall c, hd_error (rev t) = Some c -> isspace c = false).

(** [t] is trimmed and its only whitespace is single spaces: whatever
    whitespace character has a successor is a space, and the successor
    is not whitespace. *)
Definition single_spaced (t : pystr) : Prop :=
  trimmed t /\
  forall pre c d post,
    t = pre ++ c :: d :: post -> isspace c = true ->
    c = SP /\ isspace d = false.

(** Whitespace in a line, read from the left: a whitespace character is
    a space and what follows it, if anything, is not whitespace. *)
Fixpoint spaces_single (t : pystr) : Prop :=
  match t with
  | [] => True
  | c :: rest =>
      (isspace c = true ->
       c = SP /\ forall d, hd_error rest = Some d -> isspace d = false) /\
      spaces_single rest
  end.

(** [c] is directly followed by [d] somewhere in [t]. *)
Definition adjacent (t : pystr) (c d : char) : Prop :=
  exists pre post, t = pre ++ c :: d :: post.

(** A video id: 11 characters of the class [[\w-]]. *)
Definition valid_id (ucd_isalnum : char -> bool) (id : pystr) : Prop :=
  length id = 11 /\ forallb (youtube.id_class ucd_isalnum) id = true.

(** [url] has one of the three markers after [pre], directly followed
    by the id [id]. *)
Definition id_at (ucd_isalnum : char -> bool)
    (url pre marker id post : pystr) : Prop :=
  In marker youtube.id_markers /\ valid_id ucd_isalnum id /\
  url = pre ++ marker ++ id ++ post.

(** A variable of the environment counts as missing when it is unset or
    set to the empty string. *)
Definition missing (env : config.environ) (key : pystr) : Prop :=
  config.environ_get env key = None \/ config.environ_get env key = Some [].

(** ** A stand-in world for sample runs

    The collaborators of the pipeline are parameters of the model. For
    the sample runs below they are replaced by stand-ins over a world
    that is the list of the paths written so far: every write succeeds,
    an audio file lasts no time, Pexels finds nothing, and the model's
    answer is a fixed text that the stand-in parser knows. *)

Module sample.
Import project config pexels.

Definition World : Type := list Path.

Definition path_join (base : Path) (name : pystr) : Path :=
  base ++ str "/" ++ name.

Definition make_path (s : pystr) : Path := s.

Definition wrote {A} (path : Path) (a : A) : action World A :=
  fun w => (Ok a, w ++ [path]).

Definition mkdir (path : Path) : action World unit := wrote path tt.

Definition generate_speech (text : pyval) (destination : Path)
  : action World Path := wrote destination destination.

Definition audio_duration (path : Path) : action World float :=
  ret (Float 0).

Definition search_video (client : PexelsClient) (query : pyval)
  : action World (option pydict) := ret None.

Definition download_video (client : PexelsClient) (video : pydict)
    (query : pyval) : action World PexelsVideo :=
  raise (External (str "no download in the sample world")).

Definition save (project : VideoProject) (destination : Path)
  : action World Path := wrote destination destination.

Definition render_project (segments : list ProjectSegment) (destination : Path)
  : action World Path := wrote destination destination.

Definition upload_video (video_path : Path) (title description : pystr)
    (client_secret token_path : Path) (privacy_status : pystr)
  : action World pyval := ret PyNone.

Definition download_transcript (video_id : pystr) : action World pystr :=
  ret (str "hello there").

(** The model's answer and what it parses to. *)
Definition answer : pystr := str "one segment".

Definition responses_create (model system user : pystr)
  : action World pystr := ret answer.

Definition json_loads (content : pystr) : option pyval :=
  if str_eqb content answer
  then Some (PyDict [(str "segments",
                      PyList [PyDict [(str "title", PyStr (str "Intro"))]])])
  else None.

Definition no_json (content : pystr) : option pyval := None.

Definition plan : SegmentPlan :=
  {| openai_utils.title := PyStr (str "Intro");
     openai_utils.summary := PyStr (str "Hi.");
     openai_utils.script := PyStr (str "Hi. Bye.");
     openai_utils.keywords := [PyStr (str "bye")] |}.

Definition segment : ProjectSegment :=
  {| project.index := 0;
     project.title := PyStr (str "Intro");
     project.summary := PyStr (str "Hi.");
     project.script := PyStr (str "Hi. Bye.");
     project.keywords := [PyStr (str "bye")];
     project.speech_path := str "work/speech/segment_00.mp3";
     project.video_path := None;
     project.duration := Float 0 |}.

Definition environment : environ :=
  [ (str "OPENAI_API_KEY", str "sk-1");
    (str "PEXELS_API_KEY", str "px-1");
    (str "YOUTUBE_CLIENT_SECRET", str "secret.json");
    (str "VIDEOGEN_WORKING_DIR", str "work") ].

Definition configuration : VideoGenConfig :=
  {| openai_api_key := str "sk-1";
     pexels_api_key := str "px-1";
     youtube_client_secret := str "secret.json";
     output_dir := str "output";
     working_dir := str "work";
     openai_model := str "gpt-4o-mini";
     openai_tts_model := str "gpt-4o-mini-tts";
     openai_tts_voice := str "alloy" |}.

Definition workflow : openai_workflow.OpenAIWorkflow :=
  {| openai_workflow.model := str "gpt-4o-mini";
     openai_workflow.tts_model := str "gpt-4o-mini-tts";
     openai_workflow.tts_voice := str "alloy" |}.

Definition built_project : VideoProject :=
  {| name := str "demo";
     segments := [segment];
     render_path := str "output/demo.mp4" |}.

End sample.

(** ** Facts about the builtins *)

Lemma str_eqb_eq (a b : pystr) : str_eqb a b = true <-> a = b.
Proof.
  revert b; induction a as [|x a IH]; intros [|y b]; simpl;
    try (split; (reflexivity || discriminate)).
  rewrite andb_true_iff, N.eqb_eq, IH.
  split; [intros [-> ->]; reflexivity | intros H; inversion H; auto].
Qed.

Lemma str_eqb_refl (a : pystr) : str_eqb a a = true.
Proof. apply str_eqb_eq; reflexivity. Qed.

Lemma str_eqb_neq (a b : pystr) : str_eqb a b = false <-> a <> b.
Proof.
  rewrite <- str_eqb_eq. destruct (str_eqb a b); split; congruence.
Qed.

Lemma len_app {A} (l1 l2 : list A) : len (l1 ++ l2) = (len l1 + len l2)%Z.
Proof. unfold len. rewrite length_app. lia. Qed.

Lemma len_nonneg {A} (l : list A) : (0 <= len l)%Z.
Proof. unfold len. lia. Qed.

(** A non-negative stop makes [x[:stop]] the first [stop] elements. *)
Lemma slice_to_firstn {A} (l : list A) (n : nat) :
  slice_to l (Z.of_nat n) = firstn n l.
Proof.
  unfold slice_to, len.
  destruct (Z.ltb_spec (Z.of_nat n) 0) as [Hneg|_]; [lia|].
  destruct (Nat.le_gt_cases n (length l)) as [Hle|Hgt].
  - rewrite Z.min_l by lia. rewrite Nat2Z.id. reflexivity.
  - rewrite Z.min_r by lia. rewrite Nat2Z.id.
    rewrite !firstn_all2 by lia. reflexivity.
Qed.

Lemma slice_to_prefix {A} (l : list A) (stop : Z) :
  exists rest, l = slice_to l stop ++ rest.
Proof.
  unfold slice_to. eexists. symmetry. apply firstn_skipn.
Qed.

(** [find] with a one-character needle: [-1] when the character is
    absent, else the length of the part before its first occurrence. *)
Lemma find_from_char (d : char) (s : pystr) :
  forall i, (0 <= i)%Z ->
    (~ In d s /\ find_from i [d] s = (-1)%Z) \/
    (exists pre post,
        s = pre ++ d :: post /\ ~ In d pre /\
        find_from i [d] s = (i + len pre)%Z).
Proof.
  induction s as [|c s IH]; intros i Hi.
  - left. split; [intros []|reflexivity].
  - cbn [find_from startswith]. rewrite andb_true_r.
    destruct (N.eqb_spec d c) as [->|Hne].
    + right. exists [], s. repeat split; [intros []|cbn; lia].
    + destruct (IH (i + 1)%Z ltac:(lia)) as [[Hnot Hf]|(pre & post & -> & Hnot & Hf)].
      * left. split; [|exact Hf]. intros [E|E]; [congruence|auto].
      * right. exists (c :: pre), post. repeat split.
        -- intros [E|E]; [congruence|auto].
        -- rewrite Hf. unfold len. cbn [length]. lia.
Qed.

Lemma find_char (d : char) (s : pystr) :
  (~ In d s /\ find s [d] = (-1)%Z) \/
  (exists pre post,
      s = pre ++ d :: post /\ ~ In d pre /\ find s [d] = len pre).
Proof.
  unfold find. destruct (find_from_char d s 0 ltac:(lia)) as [H|(pre & post & H1 & H2 & H3)].
  - left; exact H.
  - right. exists pre, post. rewrite H3. auto.
Qed.

Lemma slice_after_first (d : char) (pre post : pystr) :
  slice_to (pre ++ d :: post) (len pre + 1) = pre ++ [d].
Proof.
  replace (len pre + 1)%Z with (Z.of_nat (length (pre ++ [d]))).
  - rewrite slice_to_firstn.
    replace (pre ++ d :: post) with ((pre ++ [d]) ++ post)
      by (rewrite <- app_assoc; reflexivity).
    rewrite firstn_app, firstn_all, Nat.sub_diag. cbn. apply app_nil_r.
  - rewrite length_app. unfold len. cbn. lia.
Qed.

(** One turn of the delimiter loop. *)
Lemma summary_loop_step (d : char) (cleaned : pystr) (rest : list pystr) :
  (~ In d cleaned /\
   summary_loop cleaned ([d] :: rest) = summary_loop cleaned rest) \/
  cut_after_first d cleaned (summary_loop cleaned ([d] :: rest)).
Proof.
  cbn [summary_loop].
  destruct (find_char d cleaned) as [[Hnot ->]|(pre & post & Heq & Hnot & ->)].
  - left. split; [exact Hnot|reflexivity].
  - right. exists pre, post.
    destruct (Z.eqb_spec (len pre) (-1)) as [E|_].
    + pose proof (len_nonneg pre). lia.
    + cbn [negb]. rewrite Heq at 2. rewrite slice_after_first. auto.
Qed.

(** The loop of [build_plans_from_script] appends one plan per chunk. *)
Lemma fold_append_map {B} (f : Z -> pystr -> B) (items : list (Z * pystr))
    (acc : list B) :
  fold_left (fun plans '(index, chunk) => plans ++ [f index chunk]) items acc
  = acc ++ map (fun ic => f (fst ic) (snd ic)) items.
Proof.
  revert acc; induction items as [|[i c] items IH]; intros acc; cbn.
  - symmetry; apply app_nil_r.
  - rewrite IH, <- app_assoc. reflexivity.
Qed.

Lemma enumerate_length {A} (l : list A) (start : Z) :
  length (enumerate start l) = length l.
Proof. revert start; induction l; intros; cbn; auto. Qed.

Lemma enumerate_snd {A} (l : list A) (start : Z) :
  map snd (enumerate start l) = l.
Proof. revert start; induction l; intros; cbn; f_equal; auto. Qed.

Section SegmenterProperties.

Variable ucd_isalnum : char -> bool.
Variable ucd_lower : pystr -> pystr.

Abbreviation build_plans := (build_plans_from_script ucd_isalnum ucd_lower).
Abbreviation plan_of := (plan_of_chunk ucd_isalnum ucd_lower).

Lemma build_plans_map (script_text : pystr) :
  build_plans script_text =
  map (fun ic => plan_of (fst ic) (snd ic))
      (enumerate 1 (chunks_of script_text)).
Proof.
  unfold build_plans_from_script.
  destruct (chunks_of script_text) as [|c cs] eqn:E; [reflexivity|].
  rewrite fold_append_map. reflexivity.
Qed.

Lemma in_build_plans (script_text : pystr) (plan : SegmentPlan) :
  In plan (build_plans script_text) ->
  exists index chunk,
    In chunk (chunks_of script_text) /\ plan = plan_of index chunk.
Proof.
  rewrite build_plans_map, in_map_iff. intros ([i c] & <- & Hin).
  exists i, c. split; [|reflexivity].
  rewrite <- (enumerate_snd (chunks_of script_text) 1).
  apply (in_map snd) in Hin. exact Hin.
Qed.

(** C1, as the code has it: the delimiters are tried in the fixed order
    '.', '!', '?', and the first one of them that occurs at all decides
    the cut. The summary is the normalized chunk up to and including its
    first '.', when it has one; else up to and including its first '!',
    when it has one; else up to and including its first '?', when it has
    one; and with none of the three, its first 200 characters (all of it
    when shorter). *)
Theorem extract_summary_delimiter_priority (text : pystr) :
  let cleaned := _clean_sentence text in
  let summary := _extract_summary text in
  cut_after_first DOT cleaned summary
  \/ (~ In DOT cleaned /\ cut_after_first BANG cleaned summary)
  \/ (~ In DOT cleaned /\ ~ In BANG cleaned /\
      cut_after_first QUESTION cleaned summary)
  \/ (~ In DOT cleaned /\ ~ In BANG cleaned /\ ~ In QUESTION cleaned /\
      summary = firstn 200 cleaned /\ (len cleaned <= 200 -> summary = cleaned)%Z).
Proof.
  intros cleaned summary. subst summary.
  change (_extract_summary text)
    with (summary_loop cleaned [[DOT]; [BANG]; [QUESTION]]).
  destruct (summary_loop_step DOT cleaned [[BANG]; [QUESTION]])
    as [[Hdot E]|H]; [rewrite E; clear E|left; exact H].
  right.
  destruct (summary_loop_step BANG cleaned [[QUESTION]])
    as [[Hbang E]|H]; [rewrite E; clear E|left; split; assumption].
  right.
  destruct (summary_loop_step QUESTION cleaned [])
    as [[Hq E]|H]; [|left; repeat split; assumption].
  right. cbn [summary_loop] in E.
  replace (summary_loop cleaned [[QUESTION]]) with (slice_to cleaned 200)
    by (symmetry; exact E).
  change 200%Z with (Z.of_nat 200). rewrite slice_to_firstn.
  repeat split; try assumption.
  intros Hlen. apply firstn_all2. unfold len in Hlen. lia.
Qed.

(** C8: in every plan the Segmenter returns, the summary is an initial
    segment of the script. Both are strings, the script being the
    normalized chunk and the summary a slice of it that starts at 0. *)
Theorem summary_is_prefix_of_script (script_text : pystr) (plan : SegmentPlan) :
  In plan (build_plans script_text) ->
  exists summary script,
    plan.(openai_utils.summary) = PyStr summary /\
    plan.(openai_utils.script) = PyStr script /\
    prefix_of summary script.
Proof.
  intros Hin. apply in_build_plans in Hin as (i & chunk & _ & ->).
  exists (_extract_summary chunk), (_clean_sentence chunk).
  repeat split. unfold prefix_of, _extract_summary.
  generalize (_clean_sentence chunk) as cleaned; intros cleaned.
  generalize [str "."; str "!"; str "?"] as ds.
  induction ds as [|d ds IH]; cbn [summary_loop].
  - apply slice_to_prefix.
  - destruct (negb _); [apply slice_to_prefix|exact IH].
Qed.

(** C3, as the code has it: for the chunk ". . ." the summary is "."
    (the text up to its first '.'), which is not empty, so the title is
    the summary's first words, ".", and the label "Segment 1" is not
    used. The whole result is one plan with title ".", summary ".",
    script ". . ." and no keywords. *)
Theorem dots_chunk_plan :
  build_plans (str ". . .") =
  [ {| openai_utils.title := PyStr (str ".");
       openai_utils.summary := PyStr (str ".");
       openai_utils.script := PyStr (str ". . .");
       openai_utils.keywords := [] |} ].
Proof. vm_compute. reflexivity. Qed.

(** C6: the empty string and the string of three spaces both give the
    empty list of plans. *)
Theorem blank_input_gives_no_plans :
  build_plans (str "") = [] /\ build_plans (str "   ") = [].
Proof. split; vm_compute; reflexivity. Qed.

(** C5: the Segmenter is a total function of its input string. Every
    operation it uses (strip, replace, the three regex scans, find,
    slicing, split, join, lower, the counter) is defined on every
    string, so the call has no raising path: for every input it returns
    a list with one plan per non-blank chunk, each plan made of three
    strings and a list of strings. *)
Theorem build_plans_total (script_text : pystr) :
  exists plans,
    build_plans script_text = plans /\
    length plans = length (chunks_of script_text) /\
    forall plan, In plan plans ->
      exists title summary script keywords,
        plan = {| openai_utils.title := PyStr title;
                  openai_utils.summary := PyStr summary;
                  openai_utils.script := PyStr script;
                  openai_utils.keywords := map PyStr keywords |}.
Proof.
  eexists. split; [reflexivity|]. split.
  - rewrite build_plans_map, length_map. apply enumerate_length.
  - intros plan Hin. apply in_build_plans in Hin as (i & chunk & _ & ->).
    unfold plan_of_chunk. do 4 eexists. reflexivity.
Qed.

(** C7: two runs on the same input string return the same list of plans,
    equal in every field of every plan. The result depends on nothing but
    the argument (and the interpreter's fixed Unicode tables): no clock,
    no random source, and the stopword set is only tested for
    membership. *)
Theorem build_plans_deterministic (script_text : pystr)
    (first_run second_run : list SegmentPlan) :
  build_plans script_text = first_run ->
  build_plans script_text = second_run ->
  first_run = second_run.
Proof. intros <- <-. reflexivity. Qed.

End SegmenterProperties.

(** ** The counter and [most_common] *)

Lemma StronglySorted_weaken {A} (R R' : A -> A -> Prop) (l : list A) :
  (forall a b, In a l -> In b l -> R a b -> R' a b) ->
  StronglySorted R l -> StronglySorted R' l.
Proof.
  induction l as [|x l IH]; intros Himp Hs; [constructor|].
  inversion Hs as [|? ? Hl Hx]; subst. constructor.
  - apply IH; [|exact Hl]. intros a b Ha Hb. apply Himp; right; assumption.
  - rewrite Forall_forall in *. intros y Hy.
    apply Himp; [left; reflexivity|right; exact Hy|auto].
Qed.

Lemma StronglySorted_snoc {A} (R : A -> A -> Prop) (l : list A) (x : A) :
  StronglySorted R l -> Forall (fun a => R a x) l ->
  StronglySorted R (l ++ [x]).
Proof.
  induction l as [|y l IH]; intros Hs Hall; cbn.
  - repeat constructor.
  - inversion Hs as [|? ? Hl Hy]; subst. inversion Hall as [|? ? Hyx Hall']; subst.
    constructor; [auto|]. apply Forall_app. split; [exact Hy|]. constructor; auto.
Qed.

Lemma StronglySorted_app_between {A} (R : A -> A -> Prop) (l1 l2 : list A) :
  StronglySorted R (l1 ++ l2) ->
  forall a b, In a l1 -> In b l2 -> R a b.
Proof.
  induction l1 as [|x l1 IH]; intros Hs a b Ha Hb; [destruct Ha|].
  cbn in Hs. inversion Hs as [|? ? Hl Hx]; subst.
  destruct Ha as [->|Ha]; [|eauto].
  rewrite Forall_forall in Hx. apply Hx, in_or_app. right; exact Hb.
Qed.

Lemma StronglySorted_app_l {A} (R : A -> A -> Prop) (l1 l2 : list A) :
  StronglySorted R (l1 ++ l2) -> StronglySorted R l1.
Proof.
  induction l1 as [|x l1 IH]; intros Hs; [constructor|].
  cbn in Hs. inversion Hs as [|? ? Hl Hx]; subst.
  constructor; [auto|]. apply Forall_app in Hx. tauto.
Qed.

Lemma StronglySorted_irrefl_NoDup {A} (R : A -> A -> Prop) (l : list A) :
  (forall a, ~ R a a) -> StronglySorted R l -> NoDup l.
Proof.
  intros Hirr. induction 1 as [|x l Hl IH Hx]; constructor; [|exact IH].
  intros Hin. rewrite Forall_forall in Hx. exact (Hirr x (Hx x Hin)).
Qed.

Lemma StronglySorted_map {A B} (f : A -> B) (R : B -> B -> Prop) (l : list A) :
  StronglySorted (fun x y => R (f x) (f y)) l -> StronglySorted R (map f l).
Proof.
  induction 1 as [|x l Hl IH Hx]; cbn; constructor; [exact IH|].
  rewrite Forall_forall in *. intros b Hb.
  apply in_map_iff in Hb as (y & <- & Hy). auto.
Qed.

Lemma occurrences_app (w : pystr) (p q : list pystr) :
  occurrences w (p ++ q) = occurrences w p + occurrences w q.
Proof. induction p as [|x p IH]; cbn; [reflexivity|]. rewrite IH. lia. Qed.

Lemma occurrences_last (w k : pystr) (p : list pystr) :
  occurrences k (p ++ [w]) =
  occurrences k p + (if str_eqb w k then 1 else 0).
Proof. rewrite occurrences_app. cbn. lia. Qed.

Lemma first_seen_lt (w : pystr) (p : list pystr) :
  In w p -> first_seen w p < length p.
Proof.
  induction p as [|x p IH]; intros Hin; [destruct Hin|]. cbn.
  destruct (str_eqb x w) eqn:E; [lia|].
  apply str_eqb_neq in E. destruct Hin as [->|Hin]; [congruence|].
  specialize (IH Hin). lia.
Qed.

Lemma first_seen_app_in (w : pystr) (p q : list pystr) :
  In w p -> first_seen w (p ++ q) = first_seen w p.
Proof.
  induction p as [|x p IH]; intros Hin; [destruct Hin|]. cbn.
  destruct (str_eqb x w) eqn:E; [reflexivity|].
  apply str_eqb_neq in E. destruct Hin as [->|Hin]; [congruence|].
  rewrite IH by exact Hin. reflexivity.
Qed.

Lemma first_seen_app_new (w : pystr) (p : list pystr) :
  ~ In w p -> first_seen w (p ++ [w]) = length p.
Proof.
  induction p as [|x p IH]; intros Hnot; cbn.
  - rewrite str_eqb_refl. reflexivity.
  - destruct (str_eqb x w) eqn:E.
    + apply str_eqb_eq in E. subst. exfalso. apply Hnot. left; reflexivity.
    + rewrite IH; [reflexivity|]. intros H. apply Hnot. right; exact H.
Qed.

Lemma StronglySorted_map_inv {A B} (f : A -> B) (R : B -> B -> Prop)
    (l : list A) :
  StronglySorted R (map f l) -> StronglySorted (fun x y => R (f x) (f y)) l.
Proof.
  induction l as [|x l IH]; cbn; intros Hs; [constructor|].
  inversion Hs as [|? ? Hl Hx]; subst. constructor; [auto|].
  rewrite Forall_forall in *. intros y Hy. apply Hx, in_map, Hy.
Qed.

(** The keys after counting one more word: unchanged when the word has
    an entry, with the word added at the end when it has none. *)
Lemma counter_incr_keys_eq (w : pystr) (counts : Counter) :
  (In w (map fst counts) /\
   map fst (counter_incr w counts) = map fst counts) \/
  (~ In w (map fst counts) /\
   map fst (counter_incr w counts) = map fst counts ++ [w]).
Proof.
  induction counts as [|[k0 v0] counts IH]; cbn.
  - right. split; [intros []|reflexivity].
  - destruct (str_eqb k0 w) eqn:E; cbn.
    + apply str_eqb_eq in E. left. split; [left; exact E|reflexivity].
    + apply str_eqb_neq in E.
      destruct IH as [[Hin ->]|[Hnot ->]].
      * left. split; [right; exact Hin|reflexivity].
      * right. split; [|reflexivity]. intros [H|H]; [congruence|auto].
Qed.

(** What an entry of the updated counter can be, for distinct keys. *)
Lemma counter_incr_entry (w : pystr) (counts : Counter) (k : pystr) (v : Z) :
  NoDup (map fst counts) ->
  In (k, v) (counter_incr w counts) ->
  (k <> w /\ In (k, v) counts) \/
  (k = w /\ exists v0, In (w, v0) counts /\ v = (v0 + 1)%Z) \/
  (k = w /\ ~ In w (map fst counts) /\ v = 1%Z).
Proof.
  induction counts as [|[k0 v0] counts IH]; cbn; intros Hnd Hin.
  - destruct Hin as [E|[]]. inversion E; subst. right; right. auto.
  - inversion Hnd as [|? ? Hk0 Hnd']; subst.
    destruct (str_eqb k0 w) eqn:E.
    + apply str_eqb_eq in E. subst k0.
      destruct Hin as [E|Hin].
      * inversion E; subst. right; left. split; [reflexivity|].
        exists v0. split; [left; reflexivity|reflexivity].
      * left. split; [|right; exact Hin].
        intros ->. apply Hk0. apply (in_map fst) in Hin. exact Hin.
    + apply str_eqb_neq in E.
      destruct Hin as [E'|Hin].
      * inversion E'; subst. left. split; [exact E|left; reflexivity].
      * destruct (IH Hnd' Hin) as [[Hne H]|[[-> (v1 & H & ->)]|[-> [Hnot ->]]]].
        -- left. split; [exact Hne|right; exact H].
        -- right; left. split; [reflexivity|]. exists v1. split; [right; exact H|reflexivity].
        -- right; right. repeat split. intros [H|H]; [congruence|auto].
Qed.

Lemma counts_words_NoDup (words : list pystr) (counts : Counter) :
  counts_words words counts -> NoDup (map fst counts).
Proof.
  intros (_ & _ & Hs).
  apply (StronglySorted_irrefl_NoDup
           (fun a b => first_seen a words < first_seen b words));
    [intros a; lia|exact Hs].
Qed.

Lemma occurrences_absent (w : pystr) (words : list pystr) :
  ~ In w words -> occurrences w words = 0.
Proof.
  induction words as [|x p IH]; cbn; intros Hnot; [reflexivity|].
  destruct (str_eqb x w) eqn:E.
  - apply str_eqb_eq in E. subst. exfalso. apply Hnot. left; reflexivity.
  - apply IH. intros H. apply Hnot. right; exact H.
Qed.

(** Counting one more word keeps the counter right. *)
Lemma counts_words_step (words : list pystr) (counts : Counter) (w : pystr) :
  counts_words words counts ->
  counts_words (words ++ [w]) (counter_incr w counts).
Proof.
  intros Hc. pose proof (counts_words_NoDup _ _ Hc) as Hnd.
  destruct Hc as (Hkeys & Hvals & Hs).
  assert (Hold : StronglySorted
            (fun a b => first_seen a (words ++ [w]) < first_seen b (words ++ [w]))
            (map fst counts)).
  { eapply StronglySorted_weaken; [|exact Hs].
    intros a b Ha Hb Hab. rewrite Hkeys in Ha, Hb.
    rewrite !first_seen_app_in by assumption. exact Hab. }
  split; [|split].
  - intros k.
    destruct (counter_incr_keys_eq w counts) as [[Hin ->]|[Hnot ->]];
      rewrite ?in_app_iff, !Hkeys, ?in_app_iff; cbn.
    + rewrite Hkeys in Hin. intuition (subst; auto).
    + intuition.
  - intros k v Hin. rewrite occurrences_last.
    destruct (counter_incr_entry _ _ _ _ Hnd Hin)
      as [[Hne H]|[[-> (v0 & H & ->)]|[-> [Hnot ->]]]].
    + apply Hvals in H. apply not_eq_sym, str_eqb_neq in Hne. rewrite Hne. lia.
    + apply Hvals in H. rewrite str_eqb_refl. lia.
    + rewrite str_eqb_refl. rewrite Hkeys in Hnot.
      rewrite (occurrences_absent _ _ Hnot). reflexivity.
  - destruct (counter_incr_keys_eq w counts) as [[Hin ->]|[Hnot ->]];
      [exact Hold|].
    apply StronglySorted_snoc; [exact Hold|].
    rewrite Forall_forall. intros k Hk. rewrite Hkeys in Hk, Hnot.
    rewrite first_seen_app_in by exact Hk.
    rewrite first_seen_app_new by exact Hnot.
    apply first_seen_lt, Hk.
Qed.

Lemma counter_of_snoc (words : list pystr) (w : pystr) :
  counter_of (words ++ [w]) = counter_incr w (counter_of words).
Proof. unfold counter_of. rewrite fold_left_app. reflexivity. Qed.

(** [Counter(words)] has one entry per distinct word, in first-seen
    order, with the number of its occurrences. *)
Lemma counter_of_counts (words : list pystr) :
  counts_words words (counter_of words).
Proof.
  induction words as [|w words IH] using rev_ind.
  - split; [|split]; cbn; [tauto|intros ? ? []|constructor].
  - rewrite counter_of_snoc. apply counts_words_step, IH.
Qed.

Lemma insert_by_count_perm (x : pystr * Z) (sorted : Counter) :
  Permutation (insert_by_count x sorted) (x :: sorted).
Proof.
  induction sorted as [|y t IH]; cbn; [reflexivity|].
  destruct (snd x <? snd y)%Z; [|reflexivity].
  rewrite IH. apply perm_swap.
Qed.

Lemma sorted_by_count_perm (items : Counter) :
  Permutation (sorted_by_count_desc items) items.
Proof.
  induction items as [|x items IH]; cbn; [reflexivity|].
  rewrite insert_by_count_perm. constructor. exact IH.
Qed.

(** Inserting an item that was seen before all the sorted ones keeps the
    keyword order: it passes the items of greater count only. *)
Lemma insert_by_count_sorted (words : list pystr) (x : pystr * Z)
    (sorted : Counter) :
  (forall y, In y (x :: sorted) ->
             snd y = Z.of_nat (occurrences (fst y) words)) ->
  StronglySorted (item_before words) sorted ->
  Forall (fun y => first_seen (fst x) words < first_seen (fst y) words) sorted ->
  StronglySorted (item_before words) (insert_by_count x sorted).
Proof.
  intros Hval. pose proof (Hval x (or_introl eq_refl)) as Hx.
  induction sorted as [|y t IH]; intros Hs Hseen; cbn.
  - repeat constructor.
  - inversion Hs as [|? ? Ht Hy]; subst.
    inversion Hseen as [|? ? Hxy Hseen']; subst.
    pose proof (Hval y (or_intror (or_introl eq_refl))) as Hyv.
    destruct (Z.ltb_spec (snd x) (snd y)) as [Hlt|Hge].
    + constructor.
      * apply IH; [|exact Ht|exact Hseen'].
        intros z [->|Hz]; apply Hval; [left|right; right]; auto.
      * rewrite Forall_forall in *. intros z Hz.
        apply (Permutation_in _ (insert_by_count_perm x t)) in Hz.
        destruct Hz as [<-|Hz]; [|auto].
        left. lia.
    + constructor; [exact Hs|].
      constructor.
      * unfold item_before, ranks_before. lia.
      * rewrite Forall_forall in *. intros z Hz.
        specialize (Hy z Hz). specialize (Hseen' z Hz).
        unfold item_before, ranks_before in *. lia.
Qed.

(** The stable sort puts the counter in keyword order: by count,
    greatest first, and among equal counts in first-seen order. *)
Lemma sorted_by_count_sorted (words : list pystr) (items : Counter) :
  (forall y, In y items -> snd y = Z.of_nat (occurrences (fst y) words)) ->
  StronglySorted
    (fun x y => first_seen (fst x) words < first_seen (fst y) words) items ->
  StronglySorted (item_before words) (sorted_by_count_desc items).
Proof.
  induction items as [|x items IH]; intros Hval Hs; cbn; [constructor|].
  inversion Hs as [|? ? Hl Hx]; subst.
  apply insert_by_count_sorted.
  - intros y [<-|Hy]; [apply Hval; left; reflexivity|].
    apply Hval. right.
    exact (Permutation_in _ (sorted_by_count_perm items) Hy).
  - apply IH; [|exact Hl]. intros y Hy. apply Hval. right; exact Hy.
  - rewrite Forall_forall in *. intros y Hy. apply Hx.
    exact (Permutation_in _ (sorted_by_count_perm items) Hy).
Qed.

Lemma ranks_before_irrefl (words : list pystr) (a : pystr) :
  ~ ranks_before words a a.
Proof. unfold ranks_before. lia. Qed.

Lemma in_stopwords_spec (word : pystr) :
  in_stopwords word = true <-> In word _STOPWORDS.
Proof.
  unfold in_stopwords. rewrite existsb_exists. split.
  - intros (w & Hin & E). apply str_eqb_eq in E. subst. exact Hin.
  - intros Hin. exists word. split; [exact Hin|apply str_eqb_refl].
Qed.

Section KeywordProperties.

Variable ucd_isalnum : char -> bool.
Variable ucd_lower : pystr -> pystr.

Abbreviation candidates_of := (_keyword_candidates ucd_isalnum ucd_lower).
Abbreviation keywords_of := (_extract_keywords ucd_isalnum ucd_lower).

Lemma extract_keywords_eq (text : pystr) (limit : Z) :
  keywords_of text limit =
  firstn (Z.to_nat limit)
         (map fst (sorted_by_count_desc (counter_of (candidates_of text)))).
Proof.
  unfold _extract_keywords, most_common. rewrite firstn_map.
  destruct (candidates_of text); [|reflexivity].
  cbn. rewrite firstn_nil. reflexivity.
Qed.

Lemma candidate_kept (text word : pystr) :
  In word (candidates_of text) ->
  2 < length word /\ ~ In word _STOPWORDS /\
  In word (re_findall_runs (word_class ucd_isalnum) (lower ucd_lower text)).
Proof.
  unfold _keyword_candidates. rewrite filter_In, andb_true_iff, negb_true_iff.
  intros (Hin & Hlen & Hstop). repeat split.
  - apply Z.ltb_lt in Hlen. unfold len in Hlen. lia.
  - rewrite <- in_stopwords_spec. congruence.
  - exact Hin.
Qed.

(** C4: the keywords of a chunk (limit 5, the value the Segmenter uses)
    are at most 5 tokens, pairwise distinct, each a candidate of the
    chunk, so longer than 2 characters and outside the stopword set;
    they are in keyword order (more occurrences among the candidates
    first, and among tokens of equal count the one seen first); every
    candidate left out comes after all 5 of them in that order; and with
    no candidate the result is empty. *)
Theorem extract_keywords_ranked (chunk : pystr) :
  let candidates := candidates_of chunk in
  let keywords := keywords_of chunk 5 in
  length keywords <= 5 /\
  NoDup keywords /\
  (forall k, In k keywords ->
     In k candidates /\ 2 < length k /\ ~ In k _STOPWORDS) /\
  StronglySorted (ranks_before candidates) keywords /\
  (forall w, In w candidates -> ~ In w keywords ->
     length keywords = 5 /\
     forall k, In k keywords -> ranks_before candidates k w) /\
  (candidates = [] -> keywords = []).
Proof.
  intros candidates keywords. subst keywords.
  rewrite extract_keywords_eq. fold candidates.
  pose proof (counter_of_counts candidates) as Hc.
  pose proof (counts_words_NoDup _ _ Hc) as Hnd.
  destruct Hc as (Hkeys & Hvals & Hs).
  set (counts := counter_of candidates) in *.
  set (ranked := map fst (sorted_by_count_desc counts)).
  assert (Hranked : StronglySorted (ranks_before candidates) ranked).
  { apply StronglySorted_map.
    apply (sorted_by_count_sorted candidates).
    - intros [k v] Hin. cbn. apply Hvals, Hin.
    - exact (StronglySorted_map_inv fst
               (fun a b => first_seen a candidates < first_seen b candidates)
               counts Hs). }
  assert (Hin_ranked : forall k, In k ranked <-> In k candidates).
  { intros k. rewrite <- Hkeys. unfold ranked. split; intros H.
    - eapply Permutation_in; [|exact H].
      apply Permutation_map, sorted_by_count_perm.
    - eapply Permutation_in; [|exact H].
      apply Permutation_map, Permutation_sym, sorted_by_count_perm. }
  change (Z.to_nat 5) with 5.
  pose proof (firstn_skipn 5 ranked) as Hsplit.
  assert (Hfirst : StronglySorted (ranks_before candidates) (firstn 5 ranked)).
  { apply StronglySorted_app_l with (l2 := skipn 5 ranked).
    rewrite Hsplit. exact Hranked. }
  split; [apply firstn_le_length|].
  split; [eapply StronglySorted_irrefl_NoDup;
          [apply ranks_before_irrefl|exact Hfirst]|].
  split.
  { intros k Hk.
    assert (Hcand : In k candidates).
    { apply Hin_ranked. rewrite <- Hsplit. apply in_or_app. left; exact Hk. }
    split; [exact Hcand|].
    destruct (candidate_kept _ _ Hcand) as (H1 & H2 & _). split; assumption. }
  split; [exact Hfirst|].
  split.
  { intros w Hw Hnot.
    assert (Hskip : In w (skipn 5 ranked)).
    { apply Hin_ranked in Hw. rewrite <- Hsplit in Hw.
      apply in_app_or in Hw. tauto. }
    split.
    - rewrite length_firstn. apply Nat.min_l.
      destruct (Nat.le_gt_cases 5 (length ranked)) as [H|H]; [exact H|].
      rewrite skipn_all2 in Hskip by lia. destruct Hskip.
    - intros k Hk.
      apply (StronglySorted_app_between _ (firstn 5 ranked) (skipn 5 ranked));
        [rewrite Hsplit; exact Hranked|exact Hk|exact Hskip]. }
  intros Hempty. unfold ranked, counts. rewrite Hempty. reflexivity.
Qed.

End KeywordProperties.

(** ** The keyword pattern *)

Lemma flush_in (cur tok : pystr) :
  In tok (flush cur) -> cur <> [] /\ tok = rev cur.
Proof.
  destruct cur as [|c cur]; cbn; [intros []|].
  intros [<-|[]]. split; [discriminate|reflexivity].
Qed.

Lemma in_firstn {A} (n : nat) (l : list A) (x : A) :
  In x (firstn n l) -> In x l.
Proof.
  intros H. rewrite <- (firstn_skipn n l). apply in_or_app. left; exact H.
Qed.

Lemma rev_not_nil {A} (l : list A) : l <> [] -> rev l <> [].
Proof.
  intros Hne E. apply Hne. rewrite <- (rev_involutive l), E. reflexivity.
Qed.

(** Every match of [cls+] found by the scan is a maximal run of the
    class. [pre] is the text already left behind, [cur] the run being
    read. *)
Lemma findall_runs_from_maximal (cls : char -> bool) (text : pystr) :
  forall (s cur pre : pystr),
    text = pre ++ rev cur ++ s ->
    Forall (fun c => cls c = true) cur ->
    (forall c, hd_error (rev pre) = Some c -> cls c = false) ->
    forall tok, In tok (re_findall_runs_from cls cur s) ->
                maximal_run cls text tok.
Proof.
  induction s as [|c rest IH]; intros cur pre Htext Hcur Hpre tok Hin.
  - cbn in Hin. apply flush_in in Hin as [Hne ->].
    split; [apply rev_not_nil, Hne|]. split; [apply Forall_rev, Hcur|].
    exists pre, []. split; [exact Htext|]. split; [exact Hpre|].
    intros c Hc. discriminate Hc.
  - cbn in Hin. destruct (cls c) eqn:Ec.
    + apply (IH (c :: cur) pre); [|constructor; assumption|exact Hpre|exact Hin].
      rewrite Htext. cbn. rewrite <- !app_assoc. reflexivity.
    + apply in_app_or in Hin as [Hin|Hin].
      * apply flush_in in Hin as [Hne ->].
        split; [apply rev_not_nil, Hne|]. split; [apply Forall_rev, Hcur|].
        exists pre, (c :: rest). split; [exact Htext|]. split; [exact Hpre|].
        intros c' Hc'. cbn in Hc'. congruence.
      * apply (IH [] (pre ++ rev cur ++ [c])); [|constructor| |exact Hin].
        -- rewrite Htext. cbn. rewrite <- !app_assoc. reflexivity.
        -- intros c' Hc'. rewrite !rev_app_distr in Hc'. cbn in Hc'. congruence.
Qed.

Lemma findall_runs_maximal (cls : char -> bool) (text tok : pystr) :
  In tok (re_findall_runs cls text) -> maximal_run cls text tok.
Proof.
  apply (findall_runs_from_maximal cls text text [] []);
    [reflexivity|constructor|intros c Hc; discriminate Hc].
Qed.

Lemma ascii_tolower_ascii (c : char) :
  is_ascii c = true ->
  is_ascii (ascii_tolower c) = true /\ ascii_tolower (ascii_tolower c) = ascii_tolower c.
Proof.
  unfold is_ascii, ascii_tolower, ascii_isupper. intros Hc.
  apply N.ltb_lt in Hc.
  destruct ((65 <=? c)%N && (c <=? 90)%N) eqn:E.
  - apply andb_true_iff in E as [E1 E2]. apply N.leb_le in E1, E2.
    split; [apply N.ltb_lt; lia|].
    destruct (N.leb_spec (c + 32) 90); [lia|]. rewrite andb_false_r. reflexivity.
  - rewrite E. split; [apply N.ltb_lt; lia|reflexivity].
Qed.

(** On an ASCII string, [lower] leaves every stretch of its result
    unchanged. *)
Lemma ascii_lower_stable (ucd_lower : pystr -> pystr) (s k : pystr) :
  forallb is_ascii s = true ->
  stretch_of k (map ascii_tolower s) ->
  lower ucd_lower k = k.
Proof.
  intros Hs (pre & post & E).
  assert (Hk : forall c, In c k ->
                 is_ascii c = true /\ ascii_tolower c = c).
  { intros c Hc.
    assert (Hin : In c (map ascii_tolower s))
      by (rewrite E; apply in_or_app; right; apply in_or_app; left; exact Hc).
    apply in_map_iff in Hin as (c0 & <- & Hc0).
    rewrite forallb_forall in Hs. apply ascii_tolower_ascii, Hs, Hc0. }
  unfold lower.
  replace (forallb is_ascii k) with true
    by (symmetry; apply forallb_forall; intros c Hc; apply Hk, Hc).
  rewrite <- (map_id k) at 2. apply map_ext_in. intros c Hc. apply Hk, Hc.
Qed.

Lemma ascii_isalnum_not_space (c : char) :
  ascii_isalnum c = true -> isspace c = false.
Proof.
  unfold ascii_isalnum, ascii_isdigit, ascii_isupper, ascii_islower.
  rewrite !orb_true_iff, !andb_true_iff, !N.leb_le. intros H.
  apply not_true_is_false. unfold isspace.
  rewrite !orb_true_iff, !andb_true_iff, !N.leb_le, !N.eqb_eq. lia.
Qed.

Section KeywordShape.

Variable ucd_isalnum : char -> bool.
Variable ucd_lower : pystr -> pystr.

(** Two facts of the Unicode character database, used for the strings
    that are not ASCII: lowering is stable (a stretch of a lowered
    string is unchanged by [lower]), and no whitespace character is
    alphanumeric. *)
Hypothesis ucd_lower_stable :
  forall s k, stretch_of k (ucd_lower s) -> lower ucd_lower k = k.
Hypothesis ucd_isalnum_not_space :
  forall c, ucd_isalnum c = true -> isspace c = false.

Lemma lower_stable (s k : pystr) :
  stretch_of k (lower ucd_lower s) -> lower ucd_lower k = k.
Proof.
  unfold lower at 1. destruct (forallb is_ascii s) eqn:E.
  - apply ascii_lower_stable, E.
  - apply ucd_lower_stable.
Qed.

Lemma word_class_not_space (c : char) :
  word_class ucd_isalnum c = true -> isspace c = false.
Proof.
  unfold word_class, isalnum. rewrite !orb_true_iff. intros [[H|H]|H].
  - destruct (is_ascii c);
      [apply ascii_isalnum_not_space, H|apply ucd_isalnum_not_space, H].
  - apply N.eqb_eq in H. subst. reflexivity.
  - apply existsb_exists in H as (t & Hin & E). apply N.eqb_eq in E. subst t.
    cbn in Hin.
    repeat (destruct Hin as [<-|Hin]; [reflexivity|]). destruct Hin.
Qed.

Lemma nth_error_enumerate_snd {A} (l : list A) (start : Z) (i : nat)
    (item : Z * A) :
  nth_error (enumerate start l) i = Some item ->
  nth_error l i = Some (snd item).
Proof.
  intros H. rewrite <- (enumerate_snd l start), nth_error_map, H. reflexivity.
Qed.

(** The plan at a position is made of the chunk at that position. *)
Lemma nth_build_plans (script_text : pystr) (i : nat) (plan : SegmentPlan) :
  nth_error (build_plans_from_script ucd_isalnum ucd_lower script_text) i
    = Some plan ->
  exists index chunk,
    nth_error (chunks_of script_text) i = Some chunk /\
    plan = plan_of_chunk ucd_isalnum ucd_lower index chunk.
Proof.
  rewrite build_plans_map, nth_error_map.
  destruct (nth_error (enumerate 1 (chunks_of script_text)) i)
    as [[index chunk]|] eqn:E; [|discriminate].
  cbn. intros H. inversion H; subst plan.
  exists index, chunk. split; [|reflexivity].
  exact (nth_error_enumerate_snd _ _ _ _ E).
Qed.

(** A character that [lower] leaves alone is not one of A..Z. *)
Lemma stable_char_not_upper (c : char) :
  lower ucd_lower [c] = [c] -> ascii_isupper c = false.
Proof.
  unfold lower. cbn [forallb]. rewrite andb_true_r.
  destruct (is_ascii c) eqn:Ea.
  - cbn [map]. intros H. injection H as Hc.
    unfold ascii_tolower in Hc.
    destruct (ascii_isupper c); [exfalso; lia|reflexivity].
  - intros _. unfold is_ascii in Ea. apply N.ltb_ge in Ea.
    unfold ascii_isupper. destruct (N.leb_spec c 90); [lia|].
    apply andb_false_r.
Qed.

(** The ASCII part of the pattern's class: letters, digits and the
    underscore. *)
Lemma word_class_ascii (c : char) :
  word_class ucd_isalnum c = true -> is_ascii c = true ->
  ascii_isalnum c || N.eqb c 95 = true.
Proof.
  unfold word_class, isalnum. intros H Ha. rewrite Ha in H.
  apply orb_true_iff in H as [H|H]; [exact H|].
  apply existsb_exists in H as (t & Hin & E). apply N.eqb_eq in E. subst t.
  cbn in Hin.
  repeat (destruct Hin as [<-|Hin]; [discriminate Ha|]). destruct Hin.
Qed.

(** C9, as the code has it: the pattern's class holds the underscore, so
    a keyword can contain punctuation ("___" is a keyword of the chunk
    "___"), and [lower] leaves a character without a lowercase form as
    it is. What holds: every keyword of the plan at position i is a
    string that occurs in the lowercased chunk at position i, the chunk
    this plan is made of, as a maximal run of characters of the class
    (alphanumeric, underscore or one of the listed Turkish letters); it
    is unchanged by [lower]; and none of its characters is whitespace or
    one of A..Z, its ASCII characters being digits, a..z and
    underscores. *)
Theorem keywords_are_lowered_runs_of_their_chunk (script_text : pystr)
    (i : nat) (plan : SegmentPlan) (keyword : pyval) :
  nth_error (build_plans_from_script ucd_isalnum ucd_lower script_text) i
    = Some plan ->
  In keyword plan.(openai_utils.keywords) ->
  exists chunk k,
    nth_error (chunks_of script_text) i = Some chunk /\
    plan.(openai_utils.script) = PyStr (_clean_sentence chunk) /\
    keyword = PyStr k /\
    maximal_run (word_class ucd_isalnum) (lower ucd_lower chunk) k /\
    lower ucd_lower k = k /\
    Forall (fun c =>
              isspace c = false /\
              ascii_isupper c = false /\
              (is_ascii c = true ->
               ascii_isdigit c || ascii_islower c || N.eqb c 95 = true))
           k.
Proof.
  intros Hplan Hkw.
  apply nth_build_plans in Hplan as (index & chunk & Hchunk & ->).
  cbn in Hkw. apply in_map_iff in Hkw as (k & <- & Hk).
  exists chunk, k. split; [exact Hchunk|]. split; [reflexivity|].
  split; [reflexivity|].
  rewrite extract_keywords_eq in Hk. apply in_firstn in Hk.
  assert (Hcand : In k (_keyword_candidates ucd_isalnum ucd_lower chunk)).
  { pose proof (counter_of_counts
                  (_keyword_candidates ucd_isalnum ucd_lower chunk))
      as (Hkeys & _ & _).
    apply Hkeys. eapply Permutation_in; [|exact Hk].
    apply Permutation_map, sorted_by_count_perm. }
  apply candidate_kept in Hcand as (_ & _ & Hrun).
  apply findall_runs_maximal in Hrun.
  split; [exact Hrun|].
  destruct Hrun as (_ & Hall & pre & post & E & _).
  split; [apply (lower_stable chunk); exists pre, post; exact E|].
  rewrite Forall_forall in *. intros c Hc.
  pose proof (Hall c Hc) as Hclass.
  assert (Hupper : ascii_isupper c = false).
  { apply stable_char_not_upper, (lower_stable chunk).
    apply in_split in Hc as (a & b & ->).
    exists (pre ++ a), (b ++ post). rewrite E.
    rewrite <- !app_assoc. reflexivity. }
  split; [apply word_class_not_space, Hclass|]. split; [exact Hupper|].
  intros Ha. pose proof (word_class_ascii c Hclass Ha) as H.
  unfold ascii_isalnum in H. rewrite Hupper, orb_false_r in H. exact H.
Qed.

End KeywordShape.

(** ** The project assembler *)

Lemma getitem_in_range {A} (l : list A) (i : Z) :
  (0 <= i < len l)%Z -> exists x, getitem l i = Returns x.
Proof.
  intros Hi. unfold getitem.
  destruct (Z.ltb_spec i 0) as [Hneg|_]; [lia|].
  destruct (Z.ltb_spec i 0) as [Hneg|_]; [lia|].
  destruct (nth_error l (Z.to_nat i)) as [x|] eqn:E; [exists x; reflexivity|].
  apply nth_error_None in E. unfold len in Hi. lia.
Qed.

Lemma getitem_out_of_range {A} (l : list A) (i : Z) :
  (0 <= i)%Z -> (len l <= i)%Z -> getitem l i = Raises IndexError.
Proof.
  intros Hi Hlen. unfold getitem.
  destruct (Z.ltb_spec i 0) as [Hneg|_]; [lia|].
  destruct (Z.ltb_spec i 0) as [Hneg|_]; [lia|].
  destruct (nth_error l (Z.to_nat i)) as [x|] eqn:E; [|reflexivity].
  assert (Hsome : nth_error l (Z.to_nat i) <> None) by congruence.
  apply nth_error_Some in Hsome. unfold len in Hlen. lia.
Qed.

(** The loop from position [start] on: it returns when the three
    sequences reach as far as the plans do, and raises [IndexError] at
    the first plan for which one of them has no entry. *)
Lemma segments_loop_spec (speech_paths : list Path)
    (video_paths : list (option Path)) (durations : list float) :
  forall (plans : list SegmentPlan) (start : Z) (segments : list ProjectSegment),
    (0 <= start)%Z ->
    let reach := (start + len plans)%Z in
    ((reach <= len speech_paths /\ reach <= len video_paths /\
      reach <= len durations)%Z ->
     exists result,
       segments_loop speech_paths video_paths durations
                     (enumerate start plans) segments = Returns result /\
       length result = length segments + length plans) /\
    (~ (reach <= len speech_paths /\ reach <= len video_paths /\
        reach <= len durations)%Z ->
     (plans <> [] ->
      segments_loop speech_paths video_paths durations
                    (enumerate start plans) segments = Raises IndexError)).
Proof.
  induction plans as [|plan plans IH]; intros start segments Hstart reach.
  - split.
    + intros _. exists segments. cbn. split; [reflexivity|lia].
    + intros _ Hne. congruence.
  - subst reach. unfold len in *. cbn [length enumerate segments_loop].
    destruct (Z.lt_ge_cases start (Z.of_nat (length speech_paths))) as [Hsp|Hsp].
    2:{ split; [intros H; lia|]. intros _ _.
        rewrite (getitem_out_of_range speech_paths start Hstart Hsp). reflexivity. }
    destruct (getitem_in_range speech_paths start (conj Hstart Hsp)) as [sp ->].
    destruct (Z.lt_ge_cases start (Z.of_nat (length video_paths))) as [Hvp|Hvp].
    2:{ split; [intros H; lia|]. intros _ _. cbn [bind].
        rewrite (getitem_out_of_range video_paths start Hstart Hvp). reflexivity. }
    destruct (getitem_in_range video_paths start (conj Hstart Hvp)) as [vp ->].
    destruct (Z.lt_ge_cases start (Z.of_nat (length durations))) as [Hdu|Hdu].
    2:{ split; [intros H; lia|]. intros _ _. cbn [bind].
        rewrite (getitem_out_of_range durations start Hstart Hdu). reflexivity. }
    destruct (getitem_in_range durations start (conj Hstart Hdu)) as [du ->].
    cbn [bind].
    match goal with |- context [segments_loop _ _ _ _ ?acc] =>
      destruct (IH (start + 1)%Z acc ltac:(lia)) as [Hok Hbad] end.
    split.
    + intros H. destruct Hok as (result & -> & Hlen); [lia|].
      exists result. split; [reflexivity|].
      rewrite Hlen, length_app. cbn. lia.
    + intros H _. destruct plans as [|plan' plans'].
      * exfalso. apply H. cbn [length]. lia.
      * apply Hbad; [|discriminate]. intros H'. apply H. cbn [length] in *. lia.
Qed.

(** C2, as the code has it: the assembler does not compare the lengths.
    It indexes the speech-path, video-path and duration sequences by the
    position of each plan, so it returns one segment per plan whenever
    each of the three sequences is at least as long as the plans
    (entries beyond that are ignored), and it raises [IndexError] exactly
    when one of the three is shorter than the plans. *)
Theorem create_project_segments_raises_iff_too_short
    (plans : list SegmentPlan) (speech_paths : list Path)
    (video_paths : list (option Path)) (durations : list float) :
  let long_enough :=
    length plans <= length speech_paths /\
    length plans <= length video_paths /\
    length plans <= length durations in
  (long_enough ->
   exists segments,
     create_project_segments plans speech_paths video_paths durations
       = Returns segments /\
     length segments = length plans) /\
  (~ long_enough ->
   create_project_segments plans speech_paths video_paths durations
     = Raises IndexError).
Proof.
  intros long_enough. subst long_enough. unfold create_project_segments.
  destruct (segments_loop_spec speech_paths video_paths durations
              plans 0 [] ltac:(lia)) as [Hok Hbad].
  unfold len in Hok, Hbad. split.
  - intros H. destruct Hok as (result & E & Hlen); [lia|].
    exists result. split; [exact E|exact Hlen].
  - intros H. apply Hbad; [lia|]. intros ->. apply H. cbn. lia.
Qed.

(** ** [SegmentPlan.from_dict] *)

Lemma dict_get_missing (data : pydict) (key : pystr) (default : pyval) :
  dict_has data key = false -> dict_get data key default = default.
Proof.
  unfold dict_has. induction data as [|[k v] data IH]; cbn; [reflexivity|].
  destruct (str_eqb k key); cbn; [discriminate|exact IH].
Qed.

Lemma dict_get_present (data : pydict) (key : pystr) (default : pyval) :
  dict_has data key = true -> In (key, dict_get data key default) data.
Proof.
  unfold dict_has. induction data as [|[k v] data IH]; cbn; [discriminate|].
  destruct (str_eqb k key) eqn:E; cbn.
  - intros _. apply str_eqb_eq in E. subst. left; reflexivity.
  - intros H. right. apply IH, H.
Qed.

Lemma list_of_iterable (v : pyval) :
  (iterable v = true -> exists items, list_of v = Returns items) /\
  (iterable v = false -> list_of v = Raises TypeError).
Proof.
  destruct v; cbn; split; intros H;
    try discriminate; try reflexivity; eexists; reflexivity.
Qed.

(** C10, as the code has it: a missing key never makes [from_dict]
    raise. Each of 'title', 'summary', 'script' and 'keywords' that the
    dict lacks gets its default ("Unnamed", "", "", the empty list) and
    each one present is taken as it is; the call returns a plan whenever
    the 'keywords' entry is absent or iterable (a string, a list or a
    dict). A 'keywords' entry that is not iterable (null, a boolean or a
    number) makes [list(...)] raise [TypeError]. The empty dict gives the
    plan ("Unnamed", "", "", []): a plan with an empty script can enter
    the pipeline through this constructor. *)
Theorem from_dict_defaults (data : pydict) :
  let given := dict_get data (str "keywords") (PyList []) in
  (dict_has data (str "keywords") = false \/ iterable given = true ->
   exists plan,
     from_dict data = Returns plan /\
     (dict_has data (str "title") = false ->
      plan.(openai_utils.title) = PyStr (str "Unnamed")) /\
     (dict_has data (str "summary") = false ->
      plan.(openai_utils.summary) = PyStr (str "")) /\
     (dict_has data (str "script") = false ->
      plan.(openai_utils.script) = PyStr (str "")) /\
     (dict_has data (str "keywords") = false ->
      plan.(openai_utils.keywords) = []) /\
     (dict_has data (str "title") = true ->
      In (str "title", plan.(openai_utils.title)) data) /\
     (dict_has data (str "summary") = true ->
      In (str "summary", plan.(openai_utils.summary)) data) /\
     (dict_has data (str "script") = true ->
      In (str "script", plan.(openai_utils.script)) data) /\
     list_of given = Returns plan.(openai_utils.keywords)) /\
  (dict_has data (str "keywords") = true /\ iterable given = false ->
   from_dict data = Raises TypeError) /\
  from_dict [] =
    Returns {| openai_utils.title := PyStr (str "Unnamed");
               openai_utils.summary := PyStr (str "");
               openai_utils.script := PyStr (str "");
               openai_utils.keywords := [] |}.
Proof.
  intros given. split; [|split; [|reflexivity]].
  - intros Hok.
    assert (Hiter : iterable given = true).
    { destruct Hok as [Hmiss|H]; [|exact H].
      subst given. rewrite dict_get_missing by exact Hmiss. reflexivity. }
    destruct (proj1 (list_of_iterable given) Hiter) as [items Hitems].
    unfold from_dict. fold given. rewrite Hitems. cbn [bind].
    eexists. split; [reflexivity|]. cbn.
    repeat split;
      try (intros H; first [ apply dict_get_missing, H
                           | apply dict_get_present, H ]).
    intros H. subst given. rewrite dict_get_missing in Hitems by exact H.
    cbn in Hitems. congruence.
  - intros [_ Hbad]. unfold from_dict. fold given.
    rewrite (proj2 (list_of_iterable given) Hbad). reflexivity.
Qed.

(** ** Sample runs and counterexamples *)

Lemma ascii_tolower_idempotent (c : char) :
  ascii_tolower (ascii_tolower c) = ascii_tolower c.
Proof.
  unfold ascii_tolower, ascii_isupper.
  destruct ((65 <=? c)%N && (c <=? 90)%N) eqn:E; [|rewrite E; reflexivity].
  apply andb_true_iff in E as [E1 E2]. apply N.leb_le in E1, E2.
  destruct (N.leb_spec (c + 32) 90); [lia|]. rewrite andb_false_r. reflexivity.
Qed.

Lemma ascii_only_lower_stable (s k : pystr) :
  stretch_of k (ascii_only_lower s) -> lower ascii_only_lower k = k.
Proof.
  intros (pre & post & E).
  assert (Hk : map ascii_tolower k = k).
  { rewrite <- (map_id k) at 2. apply map_ext_in. intros c Hc.
    assert (Hin : In c (ascii_only_lower s))
      by (rewrite E; apply in_or_app; right; apply in_or_app; left; exact Hc).
    apply in_map_iff in Hin as (c0 & <- & _). apply ascii_tolower_idempotent. }
  unfold lower, ascii_only_lower. destruct (forallb is_ascii k); exact Hk.
Qed.

Lemma ascii_only_isalnum_not_space (c : char) :
  ascii_only_isalnum c = true -> isspace c = false.
Proof. discriminate. Qed.

(** The two-chunk example of the specification: three newlines separate
    the chunks; the first summary stops at the first '.', the second
    chunk has no delimiter and is its own summary. *)
Example two_chunks_run :
  build_plans_from_script ascii_only_isalnum ascii_only_lower
    (str "Hello world. This is great!" ++ [NL; NL; NL]
     ++ str "Second chunk here without punctuation")
  = [ {| openai_utils.title := PyStr (str "Hello world.");
         openai_utils.summary := PyStr (str "Hello world.");
         openai_utils.script := PyStr (str "Hello world. This is great!");
         openai_utils.keywords :=
           [PyStr (str "hello"); PyStr (str "world"); PyStr (str "great")] |};
      {| openai_utils.title := PyStr (str "Second chunk here without punctuation");
         openai_utils.summary := PyStr (str "Second chunk here without punctuation");
         openai_utils.script := PyStr (str "Second chunk here without punctuation");
         openai_utils.keywords :=
           [PyStr (str "second"); PyStr (str "chunk"); PyStr (str "here");
            PyStr (str "without"); PyStr (str "punctuation")] |} ].
Proof. vm_compute. reflexivity. Qed.

(** The keyword-limit example: "video" five times, "cat" three times and
    seven other tokens once each give five keywords, "video" first and
    "cat" second, then the single tokens in the order they were seen.
    Short tokens and stopwords are dropped however often they occur. *)
Example keyword_limit_run :
  _extract_keywords ascii_only_isalnum ascii_only_lower
    (str "to to to the the Dog video cat VIDEO sun cat video sky Video cat bee video ant owl fox elk")
    5
  = [str "video"; str "cat"; str "dog"; str "sun"; str "sky"].
Proof. vm_compute. reflexivity. Qed.

(** A lone newline stays inside its chunk and is normalized to a space;
    the fallback title needs an empty summary. *)
Example title_fallback_run :
  _title_from_text (str "") 3 = str "Segment 3" /\
  _title_from_text (str "one two three four five six seven") 3
    = str "one two three four five six" /\
  _clean_sentence (str "  a" ++ [NL] ++ str "  b  ") = str "a b".
Proof. repeat split; vm_compute; reflexivity. Qed.

(** C1 fails as stated: in "Hi! Bye." the delimiter at the smallest
    index is the '!' at index 2, but the code cuts after the '.', which
    it looks for first. *)
Lemma extract_summary_not_at_earliest_delimiter :
  summary_at_earliest_delimiter (str "Hi! Bye.") = str "Hi!" /\
  _extract_summary (str "Hi! Bye.") = str "Hi! Bye." /\
  _extract_summary (str "Hi! Bye.")
    <> summary_at_earliest_delimiter (str "Hi! Bye.").
Proof.
  split; [vm_compute; reflexivity|].
  split; [vm_compute; reflexivity|].
  vm_compute. discriminate.
Qed.

(** C2 fails as stated: with one plan, two speech paths, one video path
    and one duration the lengths differ, and the call returns. *)
Lemma assembler_returns_on_unequal_lengths :
  let plan := {| openai_utils.title := PyStr (str "Intro");
                 openai_utils.summary := PyStr (str "Hi.");
                 openai_utils.script := PyStr (str "Hi. Bye.");
                 openai_utils.keywords := [] |} in
  let speech_paths := [str "a.mp3"; str "b.mp3"] in
  length [plan] <> length speech_paths /\
  create_project_segments [plan] speech_paths [None] [Float 0] =
  Returns [ {| index := 0;
               title := PyStr (str "Intro");
               summary := PyStr (str "Hi.");
               script := PyStr (str "Hi. Bye.");
               keywords := [];
               speech_path := str "a.mp3";
               video_path := None;
               duration := Float 0 |} ].
Proof. split; [cbn; discriminate|vm_compute; reflexivity]. Qed.

(** C3 fails as stated: whatever the character database, the title of
    the plan built from ". . ." is not "Segment 1". *)
Lemma dots_chunk_title_is_not_fallback :
  ~ (exists ucd_isalnum ucd_lower plan rest,
        build_plans_from_script ucd_isalnum ucd_lower (str ". . .")
          = plan :: rest /\
        plan.(openai_utils.title) = PyStr (str "Segment 1")).
Proof.
  intros (ucd_isalnum & ucd_lower & plan & rest & Hplans & Htitle).
  vm_compute in Hplans. inversion Hplans; subst plan.
  vm_compute in Htitle. discriminate Htitle.
Qed.

(** C10 fails as stated: a dict without 'title', 'summary' and 'script'
    whose 'keywords' is null makes [from_dict] raise. *)
Lemma from_dict_raises_on_null_keywords :
  dict_has [(str "keywords", PyNone)] (str "title") = false /\
  from_dict [(str "keywords", PyNone)] = Raises TypeError.
Proof. split; vm_compute; reflexivity. Qed.

(** C7 on a sample: both runs on "Hi there. Bye." give this one plan. *)
Lemma build_plans_deterministic_witness :
  let script_text := str "Hi there. Bye." in
  let plans :=
    [ {| openai_utils.title := PyStr (str "Hi there.");
         openai_utils.summary := PyStr (str "Hi there.");
         openai_utils.script := PyStr (str "Hi there. Bye.");
         openai_utils.keywords := [PyStr (str "there"); PyStr (str "bye")] |} ] in
  build_plans_from_script ascii_only_isalnum ascii_only_lower script_text
    = plans /\
  plans = plans.
Proof.
  split; [vm_compute; reflexivity|].
  apply (build_plans_deterministic ascii_only_isalnum ascii_only_lower
           (str "Hi there. Bye."));
    vm_compute; reflexivity.
Defined.

(** C8 on a sample: the summary "Hi there." starts the script
    "Hi there. Bye.". *)
Lemma summary_is_prefix_of_script_witness :
  let plan :=
    {| openai_utils.title := PyStr (str "Hi there.");
       openai_utils.summary := PyStr (str "Hi there.");
       openai_utils.script := PyStr (str "Hi there. Bye.");
       openai_utils.keywords := [PyStr (str "there"); PyStr (str "bye")] |} in
  In plan (build_plans_from_script ascii_only_isalnum ascii_only_lower
             (str "Hi there. Bye.")) /\
  exists summary script,
    plan.(openai_utils.summary) = PyStr summary /\
    plan.(openai_utils.script) = PyStr script /\
    prefix_of summary script.
Proof.
  split; [vm_compute; left; reflexivity|].
  apply (summary_is_prefix_of_script ascii_only_isalnum ascii_only_lower
           (str "Hi there. Bye.")).
  vm_compute. left. reflexivity.
Defined.

(** C9 fails as stated: whatever the character database, the chunk
    "___" has the keyword "___", three underscores, and the underscore
    is punctuation, not a letter or a digit. *)
Lemma underscores_make_a_keyword :
  ~ (exists ucd_isalnum ucd_lower,
        build_plans_from_script ucd_isalnum ucd_lower (str "___")
        <> [ {| openai_utils.title := PyStr (str "___");
                openai_utils.summary := PyStr (str "___");
                openai_utils.script := PyStr (str "___");
                openai_utils.keywords := [PyStr (str "___")] |} ]) /\
  ascii_isalnum 95%N = false /\
  str "___" = [95; 95; 95]%N.
Proof.
  split; [|split; reflexivity].
  intros (ucd_isalnum & ucd_lower & H). apply H. vm_compute. reflexivity.
Qed.

(** C9 on a sample, with the ASCII-only database: the second plan and
    its keyword "there", which comes from "THERE" in the second chunk
    and not from the first. *)
Lemma keywords_are_lowered_runs_of_their_chunk_witness :
  let script_text := str "One two." ++ [NL; NL] ++ str "Hi THERE, Bye_1." in
  let plan :=
    {| openai_utils.title := PyStr (str "Hi THERE, Bye_1.");
       openai_utils.summary := PyStr (str "Hi THERE, Bye_1.");
       openai_utils.script := PyStr (str "Hi THERE, Bye_1.");
       openai_utils.keywords := [PyStr (str "there"); PyStr (str "bye_1")] |} in
  nth_error (build_plans_from_script ascii_only_isalnum ascii_only_lower
               script_text) 1 = Some plan /\
  In (PyStr (str "there")) plan.(openai_utils.keywords) /\
  exists chunk k,
    nth_error (chunks_of script_text) 1 = Some chunk /\
    plan.(openai_utils.script) = PyStr (_clean_sentence chunk) /\
    PyStr (str "there") = PyStr k /\
    maximal_run (word_class ascii_only_isalnum)
                (lower ascii_only_lower chunk) k /\
    lower ascii_only_lower k = k /\
    Forall (fun c =>
              isspace c = false /\
              ascii_isupper c = false /\
              (is_ascii c = true ->
               ascii_isdigit c || ascii_islower c || N.eqb c 95 = true))
           k.
Proof.
  split; [vm_compute; reflexivity|].
  split; [vm_compute; left; reflexivity|].
  apply (keywords_are_lowered_runs_of_their_chunk
           ascii_only_isalnum ascii_only_lower
           ascii_only_lower_stable ascii_only_isalnum_not_space
           (str "One two." ++ [NL; NL] ++ str "Hi THERE, Bye_1.") 1
           {| openai_utils.title := PyStr (str "Hi THERE, Bye_1.");
              openai_utils.summary := PyStr (str "Hi THERE, Bye_1.");
              openai_utils.script := PyStr (str "Hi THERE, Bye_1.");
              openai_utils.keywords :=
                [PyStr (str "there"); PyStr (str "bye_1")] |});
    [vm_compute; reflexivity|vm_compute; left; reflexivity].
Defined.

(** ** Whitespace normalization *)

Lemma join_cons (w : pystr) (ws : list pystr) :
  join [SP] (w :: ws) = w ++ spaced_tail ws.
Proof.
  revert w. induction ws as [|w' ws IH]; intros w.
  - cbn. symmetry. apply app_nil_r.
  - change (join [SP] (w :: w' :: ws)) with (w ++ [SP] ++ join [SP] (w' :: ws)).
    rewrite IH. reflexivity.
Qed.

Lemma split_from_spaces (ws cur : pystr) :
  Forall (fun c => isspace c = true) ws -> split_ws_from cur ws = flush cur.
Proof.
  revert cur. induction ws as [|c ws IH]; intros cur Hall; [reflexivity|].
  inversion Hall as [|? ? Hc Hws]; subst. cbn. rewrite Hc, IH by exact Hws.
  apply app_nil_r.
Qed.

Lemma split_from_app_spaces (u ws cur : pystr) :
  Forall (fun c => isspace c = true) ws ->
  split_ws_from cur (u ++ ws) = split_ws_from cur u.
Proof.
  intros Hws. revert cur. induction u as [|c u IH]; intros cur; cbn.
  - apply split_from_spaces, Hws.
  - destruct (isspace c); rewrite IH; reflexivity.
Qed.

Lemma split_spaces_app (ws u : pystr) :
  Forall (fun c => isspace c = true) ws -> split (ws ++ u) = split u.
Proof.
  unfold split. induction 1 as [|c ws Hc Hws IH]; [reflexivity|].
  cbn. rewrite Hc. exact IH.
Qed.

Lemma lstrip_decomp (s : pystr) :
  exists ws, s = ws ++ lstrip s /\ Forall (fun c => isspace c = true) ws.
Proof.
  induction s as [|c s (ws & E & Hws)]; [exists []; split; [reflexivity|constructor]|].
  cbn. destruct (isspace c) eqn:Ec.
  - exists (c :: ws). split; [cbn; f_equal; exact E|constructor; assumption].
  - exists []. split; [reflexivity|constructor].
Qed.

Lemma lstrip_head (s : pystr) (c : char) :
  hd_error (lstrip s) = Some c -> isspace c = false.
Proof.
  induction s as [|c0 s IH]; cbn; [discriminate|].
  destruct (isspace c0) eqn:E; [exact IH|]. cbn. congruence.
Qed.

(** [strip] removes whitespace at both ends and nothing else. *)
Lemma strip_decomp (s : pystr) :
  exists before after,
    s = before ++ strip s ++ after /\
    Forall (fun c => isspace c = true) before /\
    Forall (fun c => isspace c = true) after.
Proof.
  destruct (lstrip_decomp s) as (ws1 & E1 & H1).
  destruct (lstrip_decomp (rev (lstrip s))) as (ws2 & E2 & H2).
  exists ws1, (rev ws2). split; [|split; [exact H1|apply Forall_rev, H2]].
  unfold strip. rewrite <- rev_app_distr, <- E2, rev_involutive. exact E1.
Qed.

Lemma strip_trimmed (s : pystr) : trimmed (strip s).
Proof.
  split; intros c Hc.
  - destruct (lstrip_decomp (rev (lstrip s))) as (ws2 & E2 & H2).
    apply (lstrip_head s).
    assert (E : lstrip s = strip s ++ rev ws2).
    { unfold strip. rewrite <- rev_app_distr, <- E2, rev_involutive. reflexivity. }
    rewrite E. destruct (strip s); [discriminate Hc|exact Hc].
  - unfold strip in Hc. rewrite rev_involutive in Hc.
    exact (lstrip_head _ _ Hc).
Qed.

Lemma split_strip (s : pystr) : split (strip s) = split s.
Proof.
  destruct (strip_decomp s) as (before & after & E & Hb & Ha).
  rewrite E at 2. rewrite split_spaces_app by exact Hb.
  unfold split. rewrite split_from_app_spaces by exact Ha. reflexivity.
Qed.

Lemma isspace_replace (c : char) :
  isspace (if N.eqb c NL then SP else c) = isspace c.
Proof. destruct (N.eqb_spec c NL) as [->|_]; reflexivity. Qed.

Lemma replace_not_space (c : char) :
  isspace c = false -> (if N.eqb c NL then SP else c) = c.
Proof. destruct (N.eqb_spec c NL) as [->|_]; [discriminate|reflexivity]. Qed.

Lemma split_from_replace (u cur : pystr) :
  split_ws_from cur (replace_char NL SP u) = split_ws_from cur u.
Proof.
  revert cur. induction u as [|c u IH]; intros cur; [reflexivity|].
  cbn. rewrite isspace_replace. destruct (isspace c) eqn:E.
  - rewrite IH. reflexivity.
  - rewrite (replace_not_space c E). apply IH.
Qed.

Lemma split_from_re_sub (u cur : pystr) (in_run : bool) :
  (in_run = true -> cur = []) ->
  split_ws_from cur (re_sub_spaces_from in_run [SP] u) = split_ws_from cur u.
Proof.
  revert cur in_run. induction u as [|c u IH]; intros cur in_run Hrun;
    [reflexivity|].
  cbn. destruct (isspace c) eqn:E.
  - destruct in_run.
    + rewrite (Hrun eq_refl). cbn. apply IH. reflexivity.
    + cbn. rewrite (IH [] true) by reflexivity. reflexivity.
  - cbn. rewrite E. apply IH. discriminate.
Qed.

(** Normalizing keeps the words. *)
Lemma split_clean_sentence (text : pystr) :
  split (_clean_sentence text) = split text.
Proof.
  unfold _clean_sentence, re_sub_spaces, split.
  change (str " ") with [SP].
  rewrite split_from_re_sub by discriminate.
  rewrite split_from_replace. apply split_strip.
Qed.

Lemma no_trailing_tail (c : char) (rest : pystr) :
  (forall d, hd_error (rev (c :: rest)) = Some d -> isspace d = false) ->
  (forall d, hd_error (rev rest) = Some d -> isspace d = false) /\
  (rest = [] -> isspace c = false).
Proof.
  intros H. split.
  - intros d Hd. apply H. cbn. destruct (rev rest); [discriminate Hd|exact Hd].
  - intros ->. apply H. reflexivity.
Qed.

(** The two states of the whitespace substitution against the word
    scan, on a text that does not end in whitespace: inside a word
    ([cur] not empty) and inside a whitespace run. *)
Lemma re_sub_join (u : pystr) :
  (forall d, hd_error (rev u) = Some d -> isspace d = false) ->
  (forall cur, cur <> [] ->
     exists w ws,
       split_ws_from cur u = w :: ws /\
       rev cur ++ re_sub_spaces_from false [SP] (replace_char NL SP u)
         = w ++ spaced_tail ws) /\
  (u <> [] ->
     SP :: re_sub_spaces_from true [SP] (replace_char NL SP u)
       = spaced_tail (split_ws_from [] u)).
Proof.
  induction u as [|c rest IH]; intros Hend.
  - split; [|congruence]. intros cur Hcur. exists (rev cur), [].
    cbn. destruct cur; [congruence|]. split; reflexivity.
  - destruct (no_trailing_tail c rest Hend) as [Hrest Hlast].
    destruct (IH Hrest) as [IHword IHrun].
    cbn [replace_char map re_sub_spaces_from split_ws_from].
    rewrite isspace_replace.
    destruct (isspace c) eqn:Ec.
    + assert (Hne : rest <> []) by (intros E; specialize (Hlast E); congruence).
      specialize (IHrun Hne). split.
      * intros cur Hcur. exists (rev cur), (split_ws_from [] rest).
        split; [destruct cur; [congruence|reflexivity]|].
        cbn [app]. f_equal. exact IHrun.
      * intros _. cbn [app flush]. exact IHrun.
    + rewrite (replace_not_space c Ec). split.
      * intros cur Hcur.
        destruct (IHword (c :: cur) ltac:(discriminate)) as (w & ws & Hs & Hj).
        exists w, ws. split; [exact Hs|].
        rewrite <- Hj. cbn [rev]. rewrite <- app_assoc. reflexivity.
      * intros _.
        destruct (IHword [c] ltac:(discriminate)) as (w & ws & Hs & Hj).
        rewrite Hs. change (spaced_tail (w :: ws)) with (SP :: w ++ spaced_tail ws).
        rewrite <- Hj. reflexivity.
Qed.

Lemma clean_sentence_as_join (text : pystr) :
  _clean_sentence text = join [SP] (split text).
Proof.
  rewrite <- split_strip.
  unfold _clean_sentence, re_sub_spaces, split.
  change (str " ") with [SP].
  destruct (strip_trimmed text) as [Hhead Hend].
  destruct (strip text) as [|c rest]; [reflexivity|].
  pose proof (Hhead c eq_refl) as Hc.
  destruct (no_trailing_tail c rest Hend) as [Hrest _].
  destruct (re_sub_join rest Hrest) as [Hword _].
  destruct (Hword [c] ltac:(discriminate)) as (w & ws & Hs & Hj).
  cbn [replace_char map re_sub_spaces_from split_ws_from].
  rewrite isspace_replace, Hc, (replace_not_space c Hc), Hs, join_cons.
  exact Hj.
Qed.

(** X1: [_clean_sentence(text)] is [" ".join(text.split())]: the words
    of the text, in their order, with one space between neighbours. *)
Theorem clean_sentence_joins_words (text : pystr) :
  _clean_sentence text = join (str " ") (split text).
Proof. exact (clean_sentence_as_join text). Qed.

(** The words [split] returns are proper words. *)
Lemma split_from_proper (s cur : pystr) :
  no_space cur -> Forall proper_word (split_ws_from cur s).
Proof.
  assert (Hflush : forall cur, no_space cur -> Forall proper_word (flush cur)).
  { intros [|c cur'] Hc; [constructor|].
    change (flush (c :: cur')) with [rev (c :: cur')].
    constructor; [|constructor].
    split; [apply rev_not_nil; discriminate|apply Forall_rev, Hc]. }
  revert cur. induction s as [|c s IH]; intros cur Hcur; cbn.
  - apply Hflush, Hcur.
  - destruct (isspace c) eqn:E.
    + apply Forall_app. split; [apply Hflush, Hcur|apply IH; constructor].
    + apply IH. constructor; assumption.
Qed.

Lemma split_proper (s : pystr) : Forall proper_word (split s).
Proof. apply split_from_proper. constructor. Qed.

Lemma hd_error_app {A} (a b : list A) :
  a <> [] -> hd_error (a ++ b) = hd_error a.
Proof. destruct a; [congruence|reflexivity]. Qed.

Lemma last_of_app {A} (a b : list A) :
  b <> [] -> hd_error (rev (a ++ b)) = hd_error (rev b).
Proof.
  intros Hb. rewrite rev_app_distr. apply hd_error_app, rev_not_nil, Hb.
Qed.

Lemma proper_word_head (w : pystr) (c : char) :
  proper_word w -> hd_error w = Some c -> isspace c = false.
Proof.
  intros [_ Hw] Hc. destruct w as [|c0 w]; [discriminate|].
  inversion Hc; subst. inversion Hw; assumption.
Qed.

Lemma proper_word_last (w : pystr) (c : char) :
  proper_word w -> hd_error (rev w) = Some c -> isspace c = false.
Proof.
  intros [_ Hw] Hc. apply Forall_rev in Hw.
  destruct (rev w) as [|c0 r]; [discriminate|].
  inversion Hc; subst. inversion Hw; assumption.
Qed.

Lemma spaced_tail_last (ws : list pystr) (c : char) :
  Forall proper_word ws ->
  hd_error (rev (spaced_tail ws)) = Some c -> isspace c = false.
Proof.
  induction 1 as [|w ws Hw Hws IH]; [discriminate|].
  change (spaced_tail (w :: ws)) with ((SP :: w) ++ spaced_tail ws).
  destruct ws as [|w' ws'].
  - cbn [spaced_tail flat_map]. rewrite app_nil_r.
    change (SP :: w) with ([SP] ++ w). rewrite last_of_app by apply Hw.
    apply proper_word_last, Hw.
  - rewrite last_of_app by discriminate. exact IH.
Qed.

(** A joined line of proper words is trimmed. *)
Lemma join_trimmed (ws : list pystr) :
  Forall proper_word ws -> trimmed (join [SP] ws).
Proof.
  intros Hall. destruct Hall as [|w ws Hw Hws]; [split; discriminate|].
  rewrite join_cons. split; intros c Hc.
  - rewrite hd_error_app in Hc by apply Hw. exact (proper_word_head w c Hw Hc).
  - destruct ws as [|w' ws'].
    + cbn in Hc. rewrite app_nil_r in Hc. exact (proper_word_last w c Hw Hc).
    + rewrite last_of_app in Hc by discriminate.
      exact (spaced_tail_last (w' :: ws') c Hws Hc).
Qed.

Lemma spaces_single_word (w rest : pystr) :
  no_space w -> spaces_single rest -> spaces_single (w ++ rest).
Proof.
  induction 1 as [|c w Hc Hw IH]; intros Hrest; [exact Hrest|].
  cbn. split; [congruence|auto].
Qed.

Lemma spaces_single_tail (ws : list pystr) :
  Forall proper_word ws -> spaces_single (spaced_tail ws).
Proof.
  induction 1 as [|w ws Hw Hws IH]; [exact I|].
  change (spaced_tail (w :: ws)) with (SP :: w ++ spaced_tail ws).
  cbn [spaces_single]. split.
  - intros _. split; [reflexivity|]. intros d Hd.
    rewrite hd_error_app in Hd by apply Hw. exact (proper_word_head w d Hw Hd).
  - apply spaces_single_word; [apply Hw|exact IH].
Qed.

Lemma spaces_single_adjacent (t pre post : pystr) (c d : char) :
  spaces_single t -> t = pre ++ c :: d :: post -> isspace c = true ->
  c = SP /\ isspace d = false.
Proof.
  revert t. induction pre as [|x pre IH]; intros t Ht -> Hc.
  - cbn in Ht. destruct Ht as [H _]. destruct (H Hc) as [-> Hd].
    split; [reflexivity|]. apply Hd. reflexivity.
  - cbn in Ht. destruct Ht as [_ Ht]. exact (IH _ Ht eq_refl Hc).
Qed.

Lemma join_single_spaced (ws : list pystr) :
  Forall proper_word ws -> single_spaced (join [SP] ws).
Proof.
  intros Hall. split; [apply join_trimmed, Hall|].
  intros pre c d post E Hc.
  apply (spaces_single_adjacent (join [SP] ws) pre post c d); [|exact E|exact Hc].
  destruct Hall as [|w ws Hw Hws]; [exact I|].
  rewrite join_cons. apply spaces_single_word; [apply Hw|].
  apply spaces_single_tail, Hws.
Qed.

(** X2: the normalized text neither starts nor ends with whitespace,
    and the only whitespace in it is single spaces: newlines, tabs and
    runs of blanks are gone. *)
Theorem clean_sentence_single_spaced (text : pystr) :
  single_spaced (_clean_sentence text).
Proof.
  rewrite clean_sentence_as_join. apply join_single_spaced, split_proper.
Qed.

(** X3: normalizing is idempotent; a normalized text is left as it
    is. *)
Theorem clean_sentence_idempotent (text : pystr) :
  _clean_sentence (_clean_sentence text) = _clean_sentence text.
Proof.
  rewrite (clean_sentence_as_join (_clean_sentence text)).
  rewrite split_clean_sentence. symmetry. apply clean_sentence_as_join.
Qed.

Lemma lstrip_fixed (t : pystr) :
  (forall c, hd_error t = Some c -> isspace c = false) -> lstrip t = t.
Proof.
  destruct t as [|c t]; [reflexivity|]. intros H. cbn.
  rewrite (H c eq_refl). reflexivity.
Qed.

(** [strip] leaves a trimmed text as it is. *)
Lemma strip_fixed (t : pystr) : trimmed t -> strip t = t.
Proof.
  intros [Hhead Hend]. unfold strip.
  rewrite (lstrip_fixed t Hhead), (lstrip_fixed (rev t) Hend).
  apply rev_involutive.
Qed.

Lemma firstn_Forall {A} (P : A -> Prop) (n : nat) (l : list A) :
  Forall P l -> Forall P (firstn n l).
Proof.
  intros H. rewrite Forall_forall in *. intros x Hx. apply H.
  exact (in_firstn n l x Hx).
Qed.

Lemma join_not_nil (w : pystr) (ws : list pystr) :
  w <> [] -> join [SP] (w :: ws) <> [].
Proof.
  intros Hw. rewrite join_cons. destruct w; [congruence|discriminate].
Qed.

(** The title in terms of the words of the text. *)
Lemma title_from_words (text : pystr) (fallback_index : Z) :
  _title_from_text text fallback_index =
  match split text with
  | [] => str "Segment " ++ str_of_int fallback_index
  | words => join [SP] (firstn 6 words)
  end.
Proof.
  unfold _title_from_text.
  rewrite split_clean_sentence, clean_sentence_as_join.
  change (str " ") with [SP].
  pose proof (split_proper text) as Hwords.
  destruct (split text) as [|w ws] eqn:E; [reflexivity|].
  inversion Hwords as [|? ? Hw Hws]; subst.
  destruct (join [SP] (w :: ws)) as [|c0 rest0] eqn:Ej;
    [exfalso; exact (join_not_nil w ws (proj1 Hw) Ej)|].
  change 6%Z with (Z.of_nat 6). rewrite slice_to_firstn.
  rewrite strip_fixed
    by (apply join_trimmed, firstn_Forall; constructor; assumption).
  change (firstn 6 (w :: ws)) with (w :: firstn 5 ws).
  destruct (join [SP] (w :: firstn 5 ws)) eqn:Ej';
    [exfalso; exact (join_not_nil w _ (proj1 Hw) Ej')|reflexivity].
Qed.

(** X4: the title is made of the first six words of the text (all of
    them when there are fewer) with single spaces between them; the
    label "Segment n" is used exactly when the text has no word, that
    is, when it is empty or all whitespace. *)
Theorem title_is_first_six_words (text : pystr) (fallback_index : Z) :
  (split text = [] /\
   _title_from_text text fallback_index
     = str "Segment " ++ str_of_int fallback_index) \/
  (split text <> [] /\
   _title_from_text text fallback_index
     = join (str " ") (firstn 6 (split text))).
Proof.
  rewrite title_from_words. destruct (split text) as [|w ws].
  - left. split; reflexivity.
  - right. split; [discriminate|reflexivity].
Qed.

(** ** Chunks and the plans made of them *)

Lemma adjacent_cons (x : char) (t : pystr) (a b : char) :
  adjacent (x :: t) a b -> (x = a /\ hd_error t = Some b) \/ adjacent t a b.
Proof.
  intros ([|y pre] & post & E); cbn in E; inversion E; subst.
  - left. split; reflexivity.
  - right. exists pre, post. reflexivity.
Qed.

Lemma adjacent_rev (t : pystr) (a b : char) :
  adjacent (rev t) a b -> adjacent t b a.
Proof.
  intros (pre & post & E). exists (rev post), (rev pre).
  rewrite <- (rev_involutive t), E, rev_app_distr. cbn.
  rewrite <- !app_assoc. reflexivity.
Qed.

Lemma adjacent_stretch (t before after : pystr) (a b : char) :
  adjacent t a b -> adjacent (before ++ t ++ after) a b.
Proof.
  intros (pre & post & ->). exists (before ++ pre), (post ++ after).
  rewrite <- !app_assoc. reflexivity.
Qed.

(** No piece of [re.split(r"\n{2,}", s)] has two newlines in a row. *)
Lemma re_split_from_no_break (s : pystr) :
  forall (cur : pystr) (in_sep : bool),
    ~ adjacent cur NL NL ->
    (hd_error cur = Some NL -> hd_error s <> Some NL) ->
    (in_sep = true -> cur = []) ->
    forall piece, In piece (re_split_newlines_from cur in_sep s) ->
                  ~ adjacent piece NL NL.
Proof.
  induction s as [|c rest IH]; intros cur in_sep Hcur Hhead Hsep piece Hin.
  - cbn in Hin. destruct Hin as [<-|[]]. intros H. apply Hcur.
    apply adjacent_rev, H.
  - cbn [re_split_newlines_from] in Hin.
    destruct (N.eqb_spec c NL) as [->|Hc].
    + destruct in_sep.
      * rewrite (Hsep eq_refl) in *.
        apply (IH [] true); auto; discriminate.
      * assert (Hpush : ~ adjacent (NL :: cur) NL NL).
        { intros H. apply adjacent_cons in H as [[_ H]|H]; [|auto].
          apply (Hhead H). reflexivity. }
        destruct rest as [|c' rest'].
        -- apply (IH (NL :: cur) false); auto; discriminate.
        -- destruct (N.eqb_spec c' NL) as [->|Hc'].
           ++ destruct Hin as [<-|Hin].
              ** intros H. apply Hcur, adjacent_rev, H.
              ** apply (IH [] true) in Hin; auto; try discriminate.
                 intros (pre & post & E). destruct pre; discriminate E.
           ++ apply (IH (NL :: cur) false) in Hin; auto; [|discriminate].
              intros _ H. cbn in H. congruence.
    + apply (IH (c :: cur) false) in Hin; auto.
      * intros H. apply adjacent_cons in H as [[E _]|H]; [congruence|auto].
      * cbn. congruence.
      * discriminate.
Qed.

Lemma chunk_of_piece (script_text chunk : pystr) :
  In chunk (chunks_of script_text) ->
  chunk <> [] /\
  exists piece, In piece (re_split_newlines script_text) /\ chunk = strip piece.
Proof.
  unfold chunks_of. rewrite in_map_iff. intros (piece & <- & Hin).
  apply filter_In in Hin as [Hin Hne]. split.
  - destruct (strip piece); [discriminate Hne|discriminate].
  - exists piece. split; [exact Hin|reflexivity].
Qed.

(** X5: every chunk the Segmenter works on is non-empty, neither starts
    nor ends with whitespace, and contains no two newlines in a row: no
    chunk runs across a paragraph break, and a block of whitespace
    alone gives no chunk. *)
Theorem chunks_are_trimmed_paragraphs (script_text chunk : pystr) :
  In chunk (chunks_of script_text) ->
  chunk <> [] /\ trimmed chunk /\ ~ adjacent chunk NL NL.
Proof.
  intros Hin. apply chunk_of_piece in Hin as (Hne & piece & Hpiece & ->).
  split; [exact Hne|]. split; [apply strip_trimmed|].
  intros H.
  destruct (strip_decomp piece) as (before & after & E & _ & _).
  apply (adjacent_stretch _ before after) in H. rewrite <- E in H.
  revert H.
  apply (re_split_from_no_break script_text [] false);
    [|discriminate|discriminate|exact Hpiece].
  intros (pre & post & E'). destruct pre; discriminate E'.
Qed.

Lemma split_from_not_nil (s cur : pystr) :
  cur <> [] -> split_ws_from cur s <> [].
Proof.
  revert cur. induction s as [|c s IH]; intros cur Hcur; cbn.
  - destruct cur; [congruence|discriminate].
  - destruct (isspace c).
    + destruct cur; [congruence|discriminate].
    + apply IH. discriminate.
Qed.

Lemma split_not_nil (c : char) (rest : pystr) :
  isspace c = false -> split (c :: rest) <> [].
Proof.
  intros Hc. unfold split. cbn. rewrite Hc.
  apply split_from_not_nil. discriminate.
Qed.

Lemma find_from_range (sub s : pystr) (i : Z) :
  find_from i sub s = (-1)%Z \/ (i <= find_from i sub s)%Z.
Proof.
  revert i. induction s as [|c s IH]; intros i; cbn.
  - destruct (startswith sub []); [right; lia|left; reflexivity].
  - destruct (startswith sub (c :: s)); [right; lia|].
    destruct (IH (i + 1)%Z) as [H|H]; [left; exact H|right; lia].
Qed.

Lemma slice_to_head {A} (c : A) (rest : list A) (stop : Z) :
  (1 <= stop)%Z -> exists rest', slice_to (c :: rest) stop = c :: rest'.
Proof.
  intros Hstop. unfold slice_to, len.
  destruct (Z.ltb_spec stop 0) as [H|_]; [lia|].
  destruct (Z.to_nat (Z.min stop (Z.of_nat (length (c :: rest))))) as [|n] eqn:E.
  - cbn [length] in E. lia.
  - eexists. reflexivity.
Qed.

(** The summary of a text that starts with [c] starts with [c]. *)
Lemma summary_loop_head (c : char) (rest : pystr) (delimiters : list pystr) :
  exists rest', summary_loop (c :: rest) delimiters = c :: rest'.
Proof.
  induction delimiters as [|d ds IH]; cbn [summary_loop].
  - apply slice_to_head. lia.
  - destruct (Z.eqb_spec (find (c :: rest) d) (-1)) as [E|E]; [exact IH|].
    cbn [negb]. apply slice_to_head.
    destruct (find_from_range d (c :: rest) 0) as [H|H];
      unfold find in *; [congruence|lia].
Qed.

Lemma clean_sentence_head (chunk : pystr) :
  chunk <> [] -> trimmed chunk ->
  exists c rest, _clean_sentence chunk = c :: rest /\ isspace c = false.
Proof.
  intros Hne [Hhead _]. destruct chunk as [|c0 rest0]; [congruence|].
  pose proof (split_not_nil c0 rest0 (Hhead c0 eq_refl)) as Hsplit.
  pose proof (split_proper (c0 :: rest0)) as Hproper.
  rewrite clean_sentence_as_join.
  destruct (split (c0 :: rest0)) as [|w ws]; [congruence|].
  inversion Hproper as [|? ? Hw _]; subst.
  rewrite join_cons. destruct w as [|c w]; [destruct Hw; congruence|].
  exists c, (w ++ spaced_tail ws). split; [reflexivity|].
  exact (proper_word_head (c :: w) c Hw eq_refl).
Qed.

Section PlanProperties.

Variable ucd_isalnum : char -> bool.
Variable ucd_lower : pystr -> pystr.

(** The three texts of the plan made of a chunk. *)
Lemma plan_of_chunk_texts (index : Z) (chunk : pystr) :
  chunk <> [] -> trimmed chunk ->
  exists title summary script,
    plan_of_chunk ucd_isalnum ucd_lower index chunk =
      {| openai_utils.title := PyStr title;
         openai_utils.summary := PyStr summary;
         openai_utils.script := PyStr script;
         openai_utils.keywords :=
           map PyStr (_extract_keywords ucd_isalnum ucd_lower chunk 5) |} /\
    script <> [] /\ summary <> [] /\ title <> [] /\
    title = join [SP] (firstn 6 (split summary)).
Proof.
  intros Hne Htrim.
  destruct (clean_sentence_head chunk Hne Htrim) as (c & rest & Hclean & Hc).
  exists (_title_from_text (_extract_summary chunk) index),
         (_extract_summary chunk), (_clean_sentence chunk).
  split; [reflexivity|].
  split; [rewrite Hclean; discriminate|].
  unfold _extract_summary. rewrite Hclean.
  destruct (summary_loop_head c rest [str "."; str "!"; str "?"])
    as (rest' & ->).
  split; [discriminate|].
  rewrite title_from_words.
  pose proof (split_not_nil c rest' Hc) as Hsplit.
  pose proof (split_proper (c :: rest')) as Hproper.
  destruct (split (c :: rest')) as [|w ws]; [congruence|].
  inversion Hproper as [|? ? Hw _]; subst.
  change (firstn 6 (w :: ws)) with (w :: firstn 5 ws).
  split; [apply join_not_nil, Hw|reflexivity].
Qed.

(** X6: every plan the Segmenter returns has a non-empty script, a
    non-empty summary and a non-empty title, and the title is the first
    six words of the summary joined by single spaces. The label
    "Segment n" is therefore never used for a plan of the Segmenter. *)
Theorem plans_have_text_and_title (script_text : pystr) (plan : SegmentPlan) :
  In plan (build_plans_from_script ucd_isalnum ucd_lower script_text) ->
  exists title summary script,
    plan.(openai_utils.title) = PyStr title /\
    plan.(openai_utils.summary) = PyStr summary /\
    plan.(openai_utils.script) = PyStr script /\
    script <> [] /\ summary <> [] /\ title <> [] /\
    title = join (str " ") (firstn 6 (split summary)).
Proof.
  intros Hin. apply in_build_plans in Hin as (i & chunk & Hchunk & ->).
  apply chunk_of_piece in Hchunk as (Hne & piece & _ & ->).
  destruct (plan_of_chunk_texts i (strip piece) Hne (strip_trimmed piece))
    as (title & summary & script & -> & H).
  exists title, summary, script. cbn. tauto.
Qed.

(** X7: for a plan of the Segmenter the stock-footage query
    [" ".join(plan.keywords) or plan.title] never raises and is a
    non-empty string: the keywords joined by spaces when there are any,
    else the title. *)
Theorem segmenter_plan_query (script_text : pystr) (plan : SegmentPlan) :
  In plan (build_plans_from_script ucd_isalnum ucd_lower script_text) ->
  exists query keywords title,
    cli.query_of plan = Returns (PyStr query) /\
    query <> [] /\
    plan.(openai_utils.keywords) = map PyStr keywords /\
    plan.(openai_utils.title) = PyStr title /\
    (keywords <> [] -> query = join (str " ") keywords) /\
    (keywords = [] -> query = title).
Proof.
  intros Hin. apply in_build_plans in Hin as (i & chunk & Hchunk & ->).
  pose proof Hchunk as Hkw.
  apply chunk_of_piece in Hchunk as (Hne & piece & _ & ->).
  destruct (plan_of_chunk_texts i (strip piece) Hne (strip_trimmed piece))
    as (title & summary & script & -> & _ & _ & Htitle & _).
  set (keywords := _extract_keywords ucd_isalnum ucd_lower (strip piece) 5).
  assert (Hstrings : cli.strings_of (map PyStr keywords) = Returns keywords).
  { induction keywords as [|k ks IH]; [reflexivity|].
    cbn. rewrite IH. reflexivity. }
  assert (Hproper : forall k, In k keywords -> k <> []).
  { intros k Hk E. subst k.
    assert (Hc : In [] (_keyword_candidates ucd_isalnum ucd_lower (strip piece))).
    { unfold keywords in Hk. rewrite extract_keywords_eq in Hk.
      apply in_firstn in Hk.
      pose proof (counter_of_counts
                    (_keyword_candidates ucd_isalnum ucd_lower (strip piece)))
        as (Hkeys & _ & _).
      apply Hkeys. eapply Permutation_in; [|exact Hk].
      apply Permutation_map, sorted_by_count_perm. }
    apply candidate_kept in Hc as (Hlen & _). cbn in Hlen. lia. }
  unfold cli.query_of. cbn [openai_utils.keywords openai_utils.title].
  rewrite Hstrings. cbn [bind]. change (str " ") with [SP].
  destruct keywords as [|k ks].
  - exists title, [], title. cbn. repeat split; auto; congruence.
  - assert (Hk : k <> []) by (apply Hproper; left; reflexivity).
    destruct (join [SP] (k :: ks)) as [|c q] eqn:Ej;
      [exfalso; exact (join_not_nil k ks Hk Ej)|].
    exists (c :: q), (k :: ks), title.
    repeat split; auto; try discriminate.
Qed.

End PlanProperties.

(** ** What the assembler builds *)

Lemma getitem_nth {A} (l : list A) (i : Z) (x : A) :
  (0 <= i)%Z -> getitem l i = Returns x -> nth_error l (Z.to_nat i) = Some x.
Proof.
  intros Hi. unfold getitem.
  destruct (Z.ltb_spec i 0) as [Hneg|_]; [lia|].
  destruct (Z.ltb_spec i 0) as [Hneg|_]; [lia|].
  destruct (nth_error l (Z.to_nat i)); [congruence|discriminate].
Qed.

Lemma bind_returns {A B} (m : outcome A) (k : A -> outcome B) (b : B) :
  bind m k = Returns b -> exists a, m = Returns a /\ k a = Returns b.
Proof. destruct m as [a|e]; cbn; [eauto|discriminate]. Qed.

(** What the loop adds to the segments built so far. *)
Lemma segments_loop_content (speech_paths : list Path)
    (video_paths : list (option Path)) (durations : list float) :
  forall (plans : list SegmentPlan) (start : Z)
         (segments result : list ProjectSegment),
    (0 <= start)%Z ->
    segments_loop speech_paths video_paths durations
                  (enumerate start plans) segments = Returns result ->
    exists built,
      result = segments ++ built /\
      length built = length plans /\
      forall i plan,
        nth_error plans i = Some plan ->
        exists speech_path video_path duration,
          nth_error speech_paths (Z.to_nat start + i) = Some speech_path /\
          nth_error video_paths (Z.to_nat start + i) = Some video_path /\
          nth_error durations (Z.to_nat start + i) = Some duration /\
          nth_error built i =
            Some {| index := start + Z.of_nat i;
                    title := plan.(openai_utils.title);
                    summary := plan.(openai_utils.summary);
                    script := plan.(openai_utils.script);
                    keywords := plan.(openai_utils.keywords);
                    speech_path := speech_path;
                    video_path := video_path;
                    duration := duration |}.
Proof.
  induction plans as [|plan plans IH]; intros start segments result Hstart Hrun.
  - cbn in Hrun. inversion Hrun; subst. exists [].
    split; [symmetry; apply app_nil_r|]. split; [reflexivity|].
    intros i p Hp. destruct i; discriminate Hp.
  - cbn [enumerate segments_loop] in Hrun.
    apply bind_returns in Hrun as (sp & Hsp & Hrun).
    apply bind_returns in Hrun as (vp & Hvp & Hrun).
    apply bind_returns in Hrun as (du & Hdu & Hrun).
    apply IH in Hrun as (built & -> & Hlen & Hbuilt); [|lia].
    eexists (_ :: built). split; [rewrite <- app_assoc; reflexivity|].
    split; [cbn; rewrite Hlen; reflexivity|].
    intros [|i] p Hp.
    + cbn in Hp. inversion Hp; subst p. exists sp, vp, du.
      rewrite Nat.add_0_r, Z.add_0_r.
      repeat split; try (apply getitem_nth; assumption).
    + cbn in Hp. destruct (Hbuilt i p Hp) as (s & v & d & Hs & Hv & Hd & Hb).
      exists s, v, d.
      replace (Z.to_nat start + S i) with (Z.to_nat (start + 1) + i) by lia.
      repeat split; try assumption.
      cbn [nth_error]. rewrite Hb. do 2 f_equal. lia.
Qed.

(** X8: when the assembler returns, its result lists one segment per
    plan, in the order of the plans: segment number i has index i, the
    four fields of plan i, and the entries at position i of the
    speech-path, video-path and duration sequences. *)
Theorem segments_follow_plans
    (plans : list SegmentPlan) (speech_paths : list Path)
    (video_paths : list (option Path)) (durations : list float)
    (segments : list ProjectSegment) :
  create_project_segments plans speech_paths video_paths durations
    = Returns segments ->
  length segments = length plans /\
  forall i plan,
    nth_error plans i = Some plan ->
    exists speech_path video_path duration,
      nth_error speech_paths i = Some speech_path /\
      nth_error video_paths i = Some video_path /\
      nth_error durations i = Some duration /\
      nth_error segments i =
        Some {| index := Z.of_nat i;
                title := plan.(openai_utils.title);
                summary := plan.(openai_utils.summary);
                script := plan.(openai_utils.script);
                keywords := plan.(openai_utils.keywords);
                speech_path := speech_path;
                video_path := video_path;
                duration := duration |}.
Proof.
  unfold create_project_segments. intros Hrun.
  apply segments_loop_content in Hrun as (built & -> & Hlen & Hbuilt); [|lia].
  split; [exact Hlen|].
  intros i plan Hp. exact (Hbuilt i plan Hp).
Qed.

(** The plan read back from the dict of a segment. *)
Lemma from_dict_of_segment (segment : ProjectSegment) :
  from_dict (ProjectSegment_to_dict segment) =
  Returns {| openai_utils.title := segment.(title);
             openai_utils.summary := segment.(summary);
             openai_utils.script := segment.(script);
             openai_utils.keywords := segment.(keywords) |}.
Proof. reflexivity. Qed.

(** X9: the dict written for a segment still holds its plan: for every
    plan handed to the assembler, [SegmentPlan.from_dict] applied to
    [to_dict()] of the segment at the same position returns that
    plan. *)
Theorem plan_read_back_from_segment_dict
    (plans : list SegmentPlan) (speech_paths : list Path)
    (video_paths : list (option Path)) (durations : list float)
    (segments : list ProjectSegment) (i : nat) (plan : SegmentPlan) :
  create_project_segments plans speech_paths video_paths durations
    = Returns segments ->
  nth_error plans i = Some plan ->
  exists segment,
    nth_error segments i = Some segment /\
    from_dict (ProjectSegment_to_dict segment) = Returns plan.
Proof.
  unfold create_project_segments. intros Hrun Hp.
  apply segments_loop_content in Hrun as (built & -> & _ & Hbuilt); [|lia].
  destruct (Hbuilt i plan Hp) as (s & v & d & _ & _ & _ & Hb).
  eexists. split; [exact Hb|].
  rewrite from_dict_of_segment. destruct plan; reflexivity.
Qed.

(** ** The pipeline driver *)

Lemma and_then_ok {World A B} (m : action World A) (k : A -> action World B)
    (w w' : World) (b : B) :
  and_then m k w = (Ok b, w') ->
  exists a w1, m w = (Ok a, w1) /\ k a w1 = (Ok b, w').
Proof.
  unfold and_then. destruct (m w) as [[a|e] w1]; [eauto|discriminate].
Qed.

Lemma lift_ok {World A} (r : result A) (w w' : World) (a : A) :
  lift r w = (Ok a, w') -> r = Ok a /\ w' = w.
Proof. unfold lift. intros H. inversion H; subst. split; reflexivity. Qed.

Lemma of_outcome_ok {A} (o : outcome A) (a : A) :
  of_outcome o = Ok a -> o = Returns a.
Proof. destruct o; cbn; congruence. Qed.

Section PipelineProperties.

Variable World : Type.
Variable path_join : Path -> pystr -> Path.
Variable mkdir : Path -> action World unit.
Variable generate_speech : pyval -> Path -> action World Path.
Variable audio_duration : Path -> action World float.
Variable search_video :
  pexels.PexelsClient -> pyval -> action World (option pydict).
Variable download_video :
  pexels.PexelsClient -> pydict -> pyval -> action World pexels.PexelsVideo.
Variable save : VideoProject -> Path -> action World Path.
Variable render_project : list ProjectSegment -> Path -> action World Path.
Variable upload_video :
  Path -> pystr -> pystr -> Path -> Path -> pystr -> action World pyval.

Abbreviation prepare :=
  (cli.prepare_loop path_join generate_speech audio_duration
                    search_video download_video).

Abbreviation speech_file speech_dir index :=
  (path_join speech_dir
             (str "segment_" ++ cli.format_02d index ++ str ".mp3")).

(** Each turn of the loop adds one entry to each of the three lists. *)
Lemma prepare_loop_lists (speech_dir : Path) (client : pexels.PexelsClient) :
  forall (items : list (Z * SegmentPlan))
         (speech_paths speech_paths' : list Path)
         (video_paths video_paths' : list (option Path))
         (durations durations' : list float) (w w' : World),
    prepare speech_dir client items (speech_paths, video_paths, durations) w
      = (Ok (speech_paths', video_paths', durations'), w') ->
    speech_paths' =
      speech_paths ++ map (fun item => speech_file speech_dir (fst item)) items /\
    length video_paths' = length video_paths + length items /\
    length durations' = length durations + length items.
Proof.
  induction items as [|[index plan] items IH];
    intros sp sp' vp vp' du du' w w' Hrun.
  - cbn in Hrun. inversion Hrun; subst.
    rewrite app_nil_r. cbn. split; [reflexivity|split; lia].
  - cbn [cli.prepare_loop] in Hrun.
    apply and_then_ok in Hrun as (_ & w1 & _ & Hrun).
    apply and_then_ok in Hrun as (duration & w2 & _ & Hrun).
    apply and_then_ok in Hrun as (query & w3 & _ & Hrun).
    apply and_then_ok in Hrun as (video & w4 & _ & Hrun).
    apply IH in Hrun as (-> & Hvp & Hdu).
    rewrite !length_app in *. cbn [length map fst] in *.
    rewrite <- app_assoc. split; [reflexivity|split; lia].
Qed.

(** X10: the lists the driver hands to the assembler always fit: after
    the loop over the plans each of the three lists has exactly one
    entry per plan, the speech path of plan i being
    [speech_dir / "segment_<i, two digits>.mp3"], and
    [create_project_segments] returns on them, with one segment per
    plan. The [IndexError] of the assembler cannot be reached from
    [build_project_from_plans]. *)
Theorem driver_lists_fit_assembler (speech_dir : Path)
    (client : pexels.PexelsClient) (plans : list SegmentPlan)
    (speech_paths : list Path) (video_paths : list (option Path))
    (durations : list float) (w w' : World) :
  prepare speech_dir client (enumerate 0 plans) ([], [], []) w
    = (Ok (speech_paths, video_paths, durations), w') ->
  speech_paths =
    map (fun item => speech_file speech_dir (fst item)) (enumerate 0 plans) /\
  length speech_paths = length plans /\
  length video_paths = length plans /\
  length durations = length plans /\
  exists segments,
    create_project_segments plans speech_paths video_paths durations
      = Returns segments /\
    length segments = length plans.
Proof.
  intros Hrun. apply prepare_loop_lists in Hrun as (Hsp & Hvp & Hdu).
  cbn [app length] in *. rewrite enumerate_length in Hvp, Hdu.
  assert (Hlen : length speech_paths = length plans)
    by (rewrite Hsp, length_map; apply enumerate_length).
  repeat split; try assumption.
  unfold create_project_segments.
  destruct (segments_loop_spec speech_paths video_paths durations
              plans 0 [] ltac:(lia)) as [Hok _].
  destruct Hok as (result & E & Hres); [unfold len; lia|].
  exists result. split; [exact E|exact Hres].
Qed.

(** X11: a project [build_project_from_plans] returns bears the given
    name, renders to [output_dir / "<name>.mp4"], and has one segment
    per plan, in order: segment i has index i, the title, summary,
    script and keywords of plan i, and the speech file
    [working_dir / "speech" / "segment_<i, two digits>.mp3"]. *)
Theorem built_project_follows_plans (plans : list SegmentPlan)
    (brief : pystr) (cfg : config.VideoGenConfig) (project_name : pystr)
    (render upload : bool) (upload_title upload_description : option pystr)
    (privacy_status : pystr) (built : VideoProject) (w w' : World) :
  cli.build_project_from_plans path_join mkdir generate_speech audio_duration
    search_video download_video save render_project upload_video
    plans brief cfg project_name render upload upload_title
    upload_description privacy_status w = (Ok built, w') ->
  built.(name) = project_name /\
  built.(render_path) =
    path_join cfg.(config.output_dir) (project_name ++ str ".mp4") /\
  length built.(segments) = length plans /\
  forall i plan,
    nth_error plans i = Some plan ->
    exists segment,
      nth_error built.(segments) i = Some segment /\
      segment.(index) = Z.of_nat i /\
      segment.(title) = plan.(openai_utils.title) /\
      segment.(summary) = plan.(openai_utils.summary) /\
      segment.(script) = plan.(openai_utils.script) /\
      segment.(keywords) = plan.(openai_utils.keywords) /\
      segment.(speech_path) =
        speech_file (path_join cfg.(config.working_dir) (str "speech"))
                    (Z.of_nat i).
Proof.
  unfold cli.build_project_from_plans. intros Hrun.
  apply and_then_ok in Hrun as (client & w1 & _ & Hrun).
  apply and_then_ok in Hrun as ([[sp vp] du] & w2 & Hloop & Hrun).
  apply and_then_ok in Hrun as (segs & w3 & Hsegs & Hrun).
  apply lift_ok in Hsegs as [Hsegs _]. apply of_outcome_ok in Hsegs.
  apply and_then_ok in Hrun as (_ & w4 & _ & Hrun).
  apply and_then_ok in Hrun as (_ & w5 & _ & Hrun).
  apply and_then_ok in Hrun as (_ & w6 & _ & Hrun).
  unfold ret in Hrun. inversion Hrun; subst built. cbn [name render_path segments].
  apply prepare_loop_lists in Hloop as (Hsp & _ & _). cbn [app] in Hsp.
  unfold create_project_segments in Hsegs.
  apply segments_loop_content in Hsegs as (made & -> & Hlen & Hmade); [|lia].
  split; [reflexivity|]. split; [reflexivity|]. split; [exact Hlen|].
  intros i plan Hp.
  destruct (Hmade i plan Hp) as (s & v & d & Hs & _ & _ & Hb).
  eexists. split; [exact Hb|]. cbn.
  repeat split.
  cbn in Hs. rewrite Hsp in Hs.
  rewrite nth_error_map in Hs.
  assert (Hnth : nth_error (enumerate 0 plans) i = Some (Z.of_nat i, plan)).
  { clear - Hp. change (Z.of_nat i) with (0 + Z.of_nat i)%Z.
    generalize 0%Z as start. revert i Hp.
    induction plans as [|p ps IH]; intros [|i] Hp start;
      try discriminate Hp; cbn in *.
    - inversion Hp; subst. rewrite Z.add_0_r. reflexivity.
    - rewrite (IH i Hp (start + 1)%Z). do 2 f_equal. lia. }
  rewrite Hnth in Hs. cbn in Hs. congruence.
Qed.

End PipelineProperties.

(** ** The video id of a URL *)

Lemma startswith_spec (sub s : pystr) :
  startswith sub s = true <-> exists rest, s = sub ++ rest.
Proof.
  revert s. induction sub as [|x sub IH]; intros s.
  - cbn. split; [intros _; exists s; reflexivity|reflexivity].
  - destruct s as [|y s]; cbn.
    + split; [discriminate|intros (rest & E); discriminate E].
    + rewrite andb_true_iff, N.eqb_eq, IH. split.
      * intros (-> & rest & ->). exists rest. reflexivity.
      * intros (rest & E). inversion E; subst. split; [reflexivity|eauto].
Qed.

Lemma skipn_app_exact {A} (a b : list A) : skipn (length a) (a ++ b) = b.
Proof. induction a; cbn; auto. Qed.

Lemma firstn_app_exact {A} (a b : list A) : firstn (length a) (a ++ b) = a.
Proof. induction a; cbn; [reflexivity|f_equal; auto]. Qed.

Section VideoIdProperties.

Variable ucd_isalnum : char -> bool.

Abbreviation valid := (valid_id ucd_isalnum).

Lemma id_group_spec (s group : pystr) :
  youtube.id_group ucd_isalnum s = Some group <->
  valid group /\ exists post, s = group ++ post.
Proof.
  unfold youtube.id_group, valid_id. split.
  - remember (firstn 11 s) as g eqn:Eg.
    destruct (Nat.eqb_spec (length g) 11) as [Hlen|]; [|discriminate].
    destruct (forallb (youtube.id_class ucd_isalnum) g) eqn:Hall;
      [|discriminate].
    cbn [andb]. intros E. inversion E; subst group.
    split; [split; assumption|].
    exists (skipn 11 s). rewrite Eg. symmetry. apply firstn_skipn.
  - intros ((Hlen & Hall) & post & ->).
    rewrite <- Hlen, firstn_app_exact, Hlen, Hall. reflexivity.
Qed.

Lemma group_after_spec (marker s group : pystr) :
  youtube.group_after ucd_isalnum marker s = Some group <->
  valid group /\ exists post, s = marker ++ group ++ post.
Proof.
  unfold youtube.group_after. split.
  - destruct (startswith marker s) eqn:E; [|discriminate].
    apply startswith_spec in E as (rest & ->).
    rewrite skipn_app_exact, id_group_spec.
    intros (Hv & post & ->). split; [exact Hv|]. exists post. reflexivity.
  - intros (Hv & post & ->).
    replace (startswith marker (marker ++ group ++ post)) with true
      by (symmetry; apply startswith_spec; eauto).
    rewrite skipn_app_exact. apply id_group_spec. split; [exact Hv|eauto].
Qed.

Lemma match_here_some (markers : list pystr) (s group : pystr) :
  youtube.match_here ucd_isalnum markers s = Some group ->
  exists marker post,
    In marker markers /\ valid group /\ s = marker ++ group ++ post.
Proof.
  induction markers as [|m ms IH]; cbn; [discriminate|].
  destruct (youtube.group_after ucd_isalnum m s) as [g|] eqn:E.
  - intros H. inversion H; subst g.
    apply group_after_spec in E as (Hv & post & ->).
    exists m, post. split; [left; reflexivity|split; [exact Hv|reflexivity]].
  - intros H. destruct (IH H) as (marker & post & Hin & Hv & Hs).
    exists marker, post. split; [right; exact Hin|split; assumption].
Qed.

Lemma match_here_none (markers : list pystr) (s : pystr) :
  youtube.match_here ucd_isalnum markers s = None ->
  forall marker group post,
    In marker markers -> valid group -> s <> marker ++ group ++ post.
Proof.
  induction markers as [|m ms IH]; cbn; [intros _ ? ? ? []|].
  destruct (youtube.group_after ucd_isalnum m s) as [g|] eqn:E; [discriminate|].
  intros H marker group post [<-|Hin] Hv Hs.
  - assert (Hsome : youtube.group_after ucd_isalnum m s = Some group)
      by (apply group_after_spec; split; [exact Hv|eauto]).
    congruence.
  - exact (IH H marker group post Hin Hv Hs).
Qed.

(** The search returns the group of the leftmost match. *)
Lemma re_search_some (url group : pystr) :
  youtube.re_search ucd_isalnum url = Some group ->
  exists pre marker post,
    id_at ucd_isalnum url pre marker group post /\
    forall pre' marker' group' post',
      id_at ucd_isalnum url pre' marker' group' post' ->
      length pre <= length pre'.
Proof.
  induction url as [|c url IH]; cbn [youtube.re_search].
  - destruct (youtube.match_here ucd_isalnum youtube.id_markers [])
      as [g|] eqn:E; [|discriminate].
    intros H. inversion H; subst g.
    apply match_here_some in E as (marker & post & Hin & Hv & Hs).
    exists [], marker, post. split; [split; [exact Hin|split; assumption]|].
    intros; cbn; lia.
  - destruct (youtube.match_here ucd_isalnum youtube.id_markers (c :: url))
      as [g|] eqn:E.
    + intros H. inversion H; subst g.
      apply match_here_some in E as (marker & post & Hin & Hv & Hs).
      exists [], marker, post. split; [split; [exact Hin|split; assumption]|].
      intros; cbn; lia.
    + intros H. destruct (IH H) as (pre & marker & post & (Hin & Hv & Hs) & Hleft).
      exists (c :: pre), marker, post. split.
      * split; [exact Hin|split; [exact Hv|cbn; f_equal; exact Hs]].
      * intros [|c' pre'] marker' group' post' (Hin' & Hv' & Hs').
        -- exfalso. exact (match_here_none _ _ E marker' group' post' Hin' Hv' Hs').
        -- cbn in Hs'. injection Hs' as _ Hs'.
           cbn. apply le_n_S.
           apply (Hleft pre' marker' group' post').
           split; [exact Hin'|split; [exact Hv'|exact Hs']].
Qed.

Lemma re_search_none (url : pystr) :
  youtube.re_search ucd_isalnum url = None ->
  forall pre marker group post, ~ id_at ucd_isalnum url pre marker group post.
Proof.
  induction url as [|c url IH]; cbn [youtube.re_search].
  - destruct (youtube.match_here ucd_isalnum youtube.id_markers [])
      eqn:E; [discriminate|].
    intros _ pre marker group post (Hin & Hv & Hs).
    destruct pre; [|discriminate Hs].
    exact (match_here_none _ _ E marker group post Hin Hv Hs).
  - destruct (youtube.match_here ucd_isalnum youtube.id_markers (c :: url))
      eqn:E; [discriminate|].
    intros H [|c' pre] marker group post (Hin & Hv & Hs).
    + exact (match_here_none _ _ E marker group post Hin Hv Hs).
    + cbn in Hs. injection Hs as _ Hs.
      apply (IH H pre marker group post).
      split; [exact Hin|split; [exact Hv|exact Hs]].
Qed.

(** X12: the id [extract_video_id] returns is exactly 11 characters of
    the class [[\w-]], it stands in the URL directly after one of the
    markers "v=", "youtu.be/" and "youtube.com/embed/", and no marker
    followed by an id starts further left in the URL. Characters after
    the eleventh are not looked at. *)
Theorem extract_video_id_is_leftmost (url id : pystr) :
  youtube.extract_video_id ucd_isalnum url = Ok id ->
  length id = 11 /\
  forallb (youtube.id_class ucd_isalnum) id = true /\
  exists pre marker post,
    In marker youtube.id_markers /\
    url = pre ++ marker ++ id ++ post /\
    forall pre' marker' id' post',
      id_at ucd_isalnum url pre' marker' id' post' ->
      length pre <= length pre'.
Proof.
  unfold youtube.extract_video_id.
  destruct (youtube.re_search ucd_isalnum url) as [g|] eqn:E; [|discriminate].
  intros H. inversion H; subst g.
  apply re_search_some in E as (pre & marker & post & (Hin & (Hlen & Hall) & Hs) & Hleft).
  split; [exact Hlen|]. split; [exact Hall|].
  exists pre, marker, post. split; [exact Hin|]. split; [exact Hs|exact Hleft].
Qed.

(** X13: [extract_video_id] raises [ValueError], with the URL in the
    message, exactly when the URL has no marker directly followed by 11
    characters of the class; otherwise it returns an id. In particular,
    a URL of fewer than 13 characters is always refused. *)
Theorem extract_video_id_raises_iff_no_id (url : pystr) :
  ((exists pre marker id post, id_at ucd_isalnum url pre marker id post) ->
   exists id, youtube.extract_video_id ucd_isalnum url = Ok id) /\
  (~ (exists pre marker id post, id_at ucd_isalnum url pre marker id post) ->
   youtube.extract_video_id ucd_isalnum url =
   Err (ValueError (str "Could not determine video id for url: " ++ url))) /\
  (length url < 13 ->
   youtube.extract_video_id ucd_isalnum url =
   Err (ValueError (str "Could not determine video id for url: " ++ url))).
Proof.
  assert (Hnone : ~ (exists pre marker id post,
                        id_at ucd_isalnum url pre marker id post) ->
                  youtube.extract_video_id ucd_isalnum url =
                  Err (ValueError
                         (str "Could not determine video id for url: " ++ url))).
  { intros Hno. unfold youtube.extract_video_id.
    destruct (youtube.re_search ucd_isalnum url) as [g|] eqn:E; [|reflexivity].
    exfalso. apply Hno.
    apply re_search_some in E as (pre & marker & post & H & _).
    exists pre, marker, g, post. exact H. }
  split; [|split; [exact Hnone|]].
  - intros (pre & marker & id & post & H). unfold youtube.extract_video_id.
    destruct (youtube.re_search ucd_isalnum url) as [g|] eqn:E; [eauto|].
    exfalso. exact (re_search_none url E pre marker id post H).
  - intros Hshort. apply Hnone.
    intros (pre & marker & id & post & Hin & (Hlen & _) & ->).
    rewrite !length_app, Hlen in Hshort.
    assert (2 <= length marker); [|lia].
    cbn in Hin. repeat (destruct Hin as [<-|Hin]; [cbn; lia|]). destruct Hin.
Qed.

End VideoIdProperties.

(** ** Transcripts, configuration and the outline *)

Section TranscriptProperties.

Variable ucd_isalnum : char -> bool.
Variable World : Type.
Variable download_transcript : pystr -> action World pystr.

Lemma gather_loop_ids (urls : list pystr) :
  forall (transcripts result : list youtube.VideoTranscript) (w w' : World),
    youtube.gather_loop ucd_isalnum download_transcript urls transcripts w
      = (Ok result, w') ->
    exists gathered,
      result = transcripts ++ gathered /\
      Forall2
        (fun url transcript =>
           youtube.extract_video_id ucd_isalnum url
             = Ok transcript.(youtube.video_id) /\
           transcript.(youtube.title) = transcript.(youtube.video_id))
        urls gathered.
Proof.
  induction urls as [|url urls IH]; intros transcripts result w w' Hrun.
  - cbn in Hrun. inversion Hrun; subst. exists [].
    split; [symmetry; apply app_nil_r|constructor].
  - cbn [youtube.gather_loop] in Hrun.
    apply and_then_ok in Hrun as (video_id & w1 & Hid & Hrun).
    apply lift_ok in Hid as [Hid ->].
    apply and_then_ok in Hrun as (text & w2 & _ & Hrun).
    apply IH in Hrun as (gathered & -> & Hall).
    eexists (_ :: gathered). split; [rewrite <- app_assoc; reflexivity|].
    constructor; [|exact Hall]. cbn. split; [exact Hid|reflexivity].
Qed.

(** X14: when [gather_transcripts] returns, it returns one transcript
    per URL, in the order of the URLs; the video id of each is the one
    [extract_video_id] finds in its URL, and its title is that id. *)
Theorem gathered_transcripts_follow_urls (urls : list pystr)
    (transcripts : list youtube.VideoTranscript) (w w' : World) :
  youtube.gather_transcripts ucd_isalnum download_transcript urls w
    = (Ok transcripts, w') ->
  Forall2
    (fun url transcript =>
       youtube.extract_video_id ucd_isalnum url
         = Ok transcript.(youtube.video_id) /\
       transcript.(youtube.title) = transcript.(youtube.video_id))
    urls transcripts.
Proof.
  unfold youtube.gather_transcripts. intros Hrun.
  apply gather_loop_ids in Hrun as (gathered & -> & Hall). exact Hall.
Qed.

End TranscriptProperties.

Section ConfigProperties.

Variable World : Type.
Variable make_path : pystr -> Path.
Variable mkdir : Path -> action World unit.

Abbreviation from_env := (config.from_environment make_path mkdir).

Lemma missing_cases (env : config.environ) (key : pystr) :
  missing env key \/
  exists c rest, config.environ_get env key = Some (c :: rest).
Proof.
  unfold missing. destruct (config.environ_get env key) as [[|c rest]|]; eauto.
Qed.

(** X15: [from_environment] raises [EnvironmentError] when one of
    OPENAI_API_KEY, PEXELS_API_KEY and YOUTUBE_CLIENT_SECRET is unset or
    empty, naming the first such variable in this order, and it does so
    before touching the file system: the world is as it was. *)
Theorem from_environment_requires_keys (env : config.environ) (w : World) :
  (missing env (str "OPENAI_API_KEY") ->
   from_env env w =
   (Err (EnvironmentError (str "OPENAI_API_KEY must be set")), w)) /\
  (~ missing env (str "OPENAI_API_KEY") ->
   missing env (str "PEXELS_API_KEY") ->
   from_env env w =
   (Err (EnvironmentError (str "PEXELS_API_KEY must be set")), w)) /\
  (~ missing env (str "OPENAI_API_KEY") ->
   ~ missing env (str "PEXELS_API_KEY") ->
   missing env (str "YOUTUBE_CLIENT_SECRET") ->
   from_env env w =
   (Err (EnvironmentError (str "YOUTUBE_CLIENT_SECRET must be set")), w)).
Proof.
  unfold config.from_environment. cbv zeta.
  split; [|split].
  - intros [E|E]; rewrite E; reflexivity.
  - intros H1 [E|E];
      destruct (missing_cases env (str "OPENAI_API_KEY"))
        as [H|(c1 & k1 & E1)]; try contradiction;
      rewrite E1, E; reflexivity.
  - intros H1 H2 [E|E];
      destruct (missing_cases env (str "OPENAI_API_KEY"))
        as [H|(c1 & k1 & E1)]; try contradiction;
      destruct (missing_cases env (str "PEXELS_API_KEY"))
        as [H|(c2 & k2 & E2)]; try contradiction;
      rewrite E1, E2, E; reflexivity.
Qed.

(** X16: a configuration [from_environment] returns has its three
    required values non-empty and as the environment gives them, and
    its two directories made of VIDEOGEN_OUTPUT_DIR and
    VIDEOGEN_WORKING_DIR, or of "output" and "working" when these are
    unset. *)
Theorem from_environment_result (env : config.environ)
    (cfg : config.VideoGenConfig) (w w' : World) :
  from_env env w = (Ok cfg, w') ->
  cfg.(config.openai_api_key) <> [] /\
  cfg.(config.pexels_api_key) <> [] /\
  config.environ_get env (str "OPENAI_API_KEY")
    = Some cfg.(config.openai_api_key) /\
  config.environ_get env (str "PEXELS_API_KEY")
    = Some cfg.(config.pexels_api_key) /\
  (exists secret,
     secret <> [] /\
     config.environ_get env (str "YOUTUBE_CLIENT_SECRET") = Some secret /\
     cfg.(config.youtube_client_secret) = make_path secret) /\
  cfg.(config.output_dir) =
    make_path (config.environ_get_or env (str "VIDEOGEN_OUTPUT_DIR")
                                     (str "output")) /\
  cfg.(config.working_dir) =
    make_path (config.environ_get_or env (str "VIDEOGEN_WORKING_DIR")
                                     (str "working")).
Proof.
  unfold config.from_environment.
  destruct (config.environ_get env (str "OPENAI_API_KEY")) as [[|c1 k1]|];
    try (unfold raise; discriminate).
  destruct (config.environ_get env (str "PEXELS_API_KEY")) as [[|c2 k2]|];
    try (unfold raise; discriminate).
  destruct (config.environ_get env (str "YOUTUBE_CLIENT_SECRET")) as [[|c3 k3]|];
    try (unfold raise; discriminate).
  intros Hrun.
  apply and_then_ok in Hrun as (_ & w1 & _ & Hrun).
  apply and_then_ok in Hrun as (_ & w2 & _ & Hrun).
  unfold ret in Hrun. inversion Hrun; subst cfg. cbn.
  repeat split; try discriminate.
  exists (c3 :: k3). repeat split. discriminate.
Qed.

End ConfigProperties.

Section OutlineProperties.

Variable World : Type.
Variable responses_create : pystr -> pystr -> pystr -> action World pystr.
Variable json_loads : pystr -> option pyval.

Lemma result_bind_ok {A B} (r : result A) (k : A -> result B) (b : B) :
  result_bind r k = Ok b -> exists a, r = Ok a /\ k a = Ok b.
Proof. destruct r as [a|e]; cbn; [eauto|discriminate]. Qed.

Lemma plans_of_items_ok (items : list pyval) :
  forall plans,
    openai_workflow.plans_of_items items = Ok plans ->
    Forall2
      (fun item plan =>
         exists data, item = PyDict data /\ from_dict data = Returns plan)
      items plans.
Proof.
  induction items as [|item items IH]; intros plans Hrun.
  - cbn in Hrun. inversion Hrun; subst. constructor.
  - cbn [openai_workflow.plans_of_items] in Hrun.
    apply result_bind_ok in Hrun as (plan & Hitem & Hrun).
    apply result_bind_ok in Hrun as (rest & Hrest & Hrun).
    inversion Hrun; subst plans. constructor; [|apply IH, Hrest].
    destruct item; try discriminate Hitem.
    cbn in Hitem. apply of_outcome_ok in Hitem. eauto.
Qed.

(** X17: a list of plans [generate_script_outline] returns is never
    empty, and it is read off the answer the model gave to this very
    request (the workflow's model, the system prompt, the user prompt
    made of the transcripts and the brief): that answer parses to a dict
    whose 'segments' entry is iterable and holds dicts only, plan number
    i is [SegmentPlan.from_dict] of item number i, and the world is as
    the request left it. *)
Theorem outline_plans_come_from_segments
    (self : openai_workflow.OpenAIWorkflow) (transcripts : list pystr)
    (prompt : pystr) (plans : list SegmentPlan) (w w' : World) :
  openai_workflow.generate_script_outline responses_create json_loads
    self transcripts prompt w = (Ok plans, w') ->
  plans <> [] /\
  exists content data items,
    responses_create self.(openai_workflow.model)
      openai_workflow.system_prompt
      (openai_workflow.user_prompt (join [NL] transcripts) prompt) w
      = (Ok content, w') /\
    json_loads content = Some (PyDict data) /\
    list_of (dict_get data (str "segments") (PyList [])) = Returns items /\
    Forall2
      (fun item plan =>
         exists item_data,
           item = PyDict item_data /\ from_dict item_data = Returns plan)
      items plans.
Proof.
  unfold openai_workflow.generate_script_outline. intros Hrun.
  apply and_then_ok in Hrun as (content & w1 & Hcall & Hrun).
  destruct (json_loads content) as [parsed|] eqn:Hjson;
    [|unfold raise in Hrun; discriminate].
  apply lift_ok in Hrun as [Hrun ->].
  destruct parsed; try discriminate Hrun.
  cbn [openai_workflow.segments_of_parsed] in Hrun.
  apply result_bind_ok in Hrun as (items & Hitems & Hrun).
  apply result_bind_ok in Hrun as (segments & Hsegments & Hrun).
  apply of_outcome_ok in Hitems.
  destruct segments as [|p ps]; [discriminate|].
  inversion Hrun; subst plans. split; [discriminate|].
  exists content, entries, items.
  split; [exact Hcall|]. split; [exact Hjson|]. split; [exact Hitems|].
  apply plans_of_items_ok, Hsegments.
Qed.

(** X18: what makes the outline fail after the model has answered [content], with
    the world as the request left it: a response that is not JSON gives
    [ValueError] "OpenAI response was not valid JSON"; a JSON dict
    without 'segments', or with an empty list there, gives [ValueError]
    "OpenAI returned no segments"; JSON that is not a dict gives
    [AttributeError]. *)
Theorem outline_failures
    (self : openai_workflow.OpenAIWorkflow) (transcripts : list pystr)
    (prompt content : pystr) (w w1 : World) :
  responses_create self.(openai_workflow.model) openai_workflow.system_prompt
    (openai_workflow.user_prompt (join [NL] transcripts) prompt) w
    = (Ok content, w1) ->
  let run :=
    openai_workflow.generate_script_outline responses_create json_loads
      self transcripts prompt w in
  (json_loads content = None ->
   run = (Err (ValueError (str "OpenAI response was not valid JSON")), w1)) /\
  (forall data,
     json_loads content = Some (PyDict data) ->
     dict_has data (str "segments") = false \/
     dict_get data (str "segments") (PyList []) = PyList [] ->
     run = (Err (ValueError (str "OpenAI returned no segments")), w1)) /\
  (forall parsed,
     json_loads content = Some parsed ->
     (forall data, parsed <> PyDict data) ->
     run = (Err AttributeError, w1)).
Proof.
  intros Hcall run. subst run.
  unfold openai_workflow.generate_script_outline, and_then. rewrite Hcall.
  split; [|split].
  - intros ->. reflexivity.
  - intros data -> Hempty.
    assert (E : dict_get data (str "segments") (PyList []) = PyList []).
    { destruct Hempty as [H|H]; [apply dict_get_missing, H|exact H]. }
    unfold lift. cbn [openai_workflow.segments_of_parsed]. rewrite E.
    reflexivity.
  - intros parsed -> Hnot. unfold lift.
    destruct parsed; try reflexivity. exfalso. exact (Hnot _ eq_refl).
Qed.

End OutlineProperties.

(** ** Sample runs of the further properties *)

(** X5 on a sample: the first of two paragraphs. *)
Lemma chunks_are_trimmed_paragraphs_witness :
  let script_text := str " Hi there. " ++ [NL; NL] ++ str "Bye" in
  let chunk := str "Hi there." in
  In chunk (chunks_of script_text) /\
  chunk <> [] /\ trimmed chunk /\ ~ adjacent chunk NL NL.
Proof.
  split; [vm_compute; left; reflexivity|].
  apply (chunks_are_trimmed_paragraphs
           (str " Hi there. " ++ [NL; NL] ++ str "Bye") (str "Hi there.")).
  vm_compute. left. reflexivity.
Defined.

(** X6 on a sample: the plan of "Hi there. Bye.". *)
Lemma plans_have_text_and_title_witness :
  let plan :=
    {| openai_utils.title := PyStr (str "Hi there.");
       openai_utils.summary := PyStr (str "Hi there.");
       openai_utils.script := PyStr (str "Hi there. Bye.");
       openai_utils.keywords := [PyStr (str "there"); PyStr (str "bye")] |} in
  In plan (build_plans_from_script ascii_only_isalnum ascii_only_lower
             (str "Hi there. Bye.")) /\
  exists title summary script,
    plan.(openai_utils.title) = PyStr title /\
    plan.(openai_utils.summary) = PyStr summary /\
    plan.(openai_utils.script) = PyStr script /\
    script <> [] /\ summary <> [] /\ title <> [] /\
    title = join (str " ") (firstn 6 (split summary)).
Proof.
  split; [vm_compute; left; reflexivity|].
  apply (plans_have_text_and_title ascii_only_isalnum ascii_only_lower
           (str "Hi there. Bye.")).
  vm_compute. left. reflexivity.
Defined.

(** X7 on a sample: the query of the plan of "Hi there. Bye." is
    "there bye". *)
Lemma segmenter_plan_query_witness :
  let plan :=
    {| openai_utils.title := PyStr (str "Hi there.");
       openai_utils.summary := PyStr (str "Hi there.");
       openai_utils.script := PyStr (str "Hi there. Bye.");
       openai_utils.keywords := [PyStr (str "there"); PyStr (str "bye")] |} in
  In plan (build_plans_from_script ascii_only_isalnum ascii_only_lower
             (str "Hi there. Bye.")) /\
  exists query keywords title,
    cli.query_of plan = Returns (PyStr query) /\
    query <> [] /\
    plan.(openai_utils.keywords) = map PyStr keywords /\
    plan.(openai_utils.title) = PyStr title /\
    (keywords <> [] -> query = join (str " ") keywords) /\
    (keywords = [] -> query = title).
Proof.
  split; [vm_compute; left; reflexivity|].
  apply (segmenter_plan_query ascii_only_isalnum ascii_only_lower
           (str "Hi there. Bye.")).
  vm_compute. left. reflexivity.
Defined.

(** X8 on a sample: one plan, one entry in each list. *)
Lemma segments_follow_plans_witness :
  create_project_segments [sample.plan] [str "work/speech/segment_00.mp3"]
                          [None] [Float 0]
    = Returns [sample.segment] /\
  length [sample.segment] = length [sample.plan].
Proof.
  split; [vm_compute; reflexivity|].
  apply (segments_follow_plans [sample.plan]
           [str "work/speech/segment_00.mp3"] [None] [Float 0]
           [sample.segment]).
  vm_compute. reflexivity.
Defined.

(** X9 on a sample: the plan comes back from the segment's dict. *)
Lemma plan_read_back_from_segment_dict_witness :
  create_project_segments [sample.plan] [str "work/speech/segment_00.mp3"]
                          [None] [Float 0]
    = Returns [sample.segment] /\
  nth_error [sample.plan] 0 = Some sample.plan /\
  exists segment,
    nth_error [sample.segment] 0 = Some segment /\
    from_dict (ProjectSegment_to_dict segment) = Returns sample.plan.
Proof.
  split; [vm_compute; reflexivity|]. split; [reflexivity|].
  apply (plan_read_back_from_segment_dict [sample.plan]
           [str "work/speech/segment_00.mp3"] [None] [Float 0]
           [sample.segment] 0 sample.plan);
    [vm_compute; reflexivity|reflexivity].
Defined.

(** X10 on a sample: the loop over one plan in the stand-in world. *)
Lemma driver_lists_fit_assembler_witness :
  let client := {| pexels.api_key := str "px-1";
                   pexels.download_dir := str "work/video" |} in
  cli.prepare_loop sample.path_join sample.generate_speech
    sample.audio_duration sample.search_video sample.download_video
    (str "work/speech") client (enumerate 0 [sample.plan]) ([], [], []) []
  = (Ok ([str "work/speech/segment_00.mp3"], [None], [Float 0]),
     [str "work/speech/segment_00.mp3"]) /\
  length [str "work/speech/segment_00.mp3"] = length [sample.plan].
Proof.
  split; [vm_compute; reflexivity|].
  apply (driver_lists_fit_assembler sample.World sample.path_join
           sample.generate_speech sample.audio_duration sample.search_video
           sample.download_video (str "work/speech")
           {| pexels.api_key := str "px-1";
              pexels.download_dir := str "work/video" |}
           [sample.plan] [str "work/speech/segment_00.mp3"] [None] [Float 0]
           [] [str "work/speech/segment_00.mp3"]).
  vm_compute. reflexivity.
Defined.

(** X11 on a sample: a whole run in the stand-in world, rendering and
    uploading; the world after lists what was written. *)
Lemma built_project_follows_plans_witness :
  cli.build_project_from_plans sample.path_join sample.mkdir
    sample.generate_speech sample.audio_duration sample.search_video
    sample.download_video sample.save sample.render_project
    sample.upload_video [sample.plan] (str "") sample.configuration
    (str "demo") true true None None (str "unlisted") []
  = (Ok sample.built_project,
     [str "work/video"; str "work/speech/segment_00.mp3";
      str "output/demo.json"; str "output/demo.mp4"]) /\
  sample.built_project.(name) = str "demo".
Proof.
  split; [vm_compute; reflexivity|].
  apply (built_project_follows_plans sample.World sample.path_join
           sample.mkdir sample.generate_speech sample.audio_duration
           sample.search_video sample.download_video sample.save
           sample.render_project sample.upload_video [sample.plan] (str "")
           sample.configuration (str "demo") true true None None
           (str "unlisted") sample.built_project []
           [str "work/video"; str "work/speech/segment_00.mp3";
            str "output/demo.json"; str "output/demo.mp4"]).
  vm_compute. reflexivity.
Defined.

(** X12 on a sample: a short link with a query after the id. *)
Lemma extract_video_id_is_leftmost_witness :
  youtube.extract_video_id ascii_only_isalnum
    (str "https://youtu.be/abc-DEF_123?t=42") = Ok (str "abc-DEF_123") /\
  length (str "abc-DEF_123") = 11.
Proof.
  split; [vm_compute; reflexivity|].
  apply (extract_video_id_is_leftmost ascii_only_isalnum
           (str "https://youtu.be/abc-DEF_123?t=42") (str "abc-DEF_123")).
  vm_compute. reflexivity.
Defined.

(** X14 on a sample: one URL, one transcript. *)
Lemma gathered_transcripts_follow_urls_witness :
  let url := str "https://www.youtube.com/watch?v=abc-DEF_123" in
  let transcript :=
    {| youtube.video_id := str "abc-DEF_123";
       youtube.title := str "abc-DEF_123";
       youtube.text := str "hello there" |} in
  youtube.gather_transcripts ascii_only_isalnum sample.download_transcript
    [url] [] = (Ok [transcript], []) /\
  Forall2
    (fun url transcript =>
       youtube.extract_video_id ascii_only_isalnum url
         = Ok transcript.(youtube.video_id) /\
       transcript.(youtube.title) = transcript.(youtube.video_id))
    [url] [transcript].
Proof.
  split; [vm_compute; reflexivity|].
  apply (gathered_transcripts_follow_urls ascii_only_isalnum sample.World
           sample.download_transcript
           [str "https://www.youtube.com/watch?v=abc-DEF_123"]
           [ {| youtube.video_id := str "abc-DEF_123";
                youtube.title := str "abc-DEF_123";
                youtube.text := str "hello there" |} ] [] []).
  vm_compute. reflexivity.
Defined.

(** X16 on a sample environment. *)
Lemma from_environment_result_witness :
  config.from_environment sample.make_path sample.mkdir sample.environment []
    = (Ok sample.configuration, [str "output"; str "work"]) /\
  sample.configuration.(config.openai_api_key) <> [].
Proof.
  split; [vm_compute; reflexivity|].
  apply (from_environment_result sample.World sample.make_path sample.mkdir
           sample.environment sample.configuration []
           [str "output"; str "work"]).
  vm_compute. reflexivity.
Defined.

(** X17 on a sample: the stand-in answer holds one segment. *)
Lemma outline_plans_come_from_segments_witness :
  let plan :=
    {| openai_utils.title := PyStr (str "Intro");
       openai_utils.summary := PyStr (str "");
       openai_utils.script := PyStr (str "");
       openai_utils.keywords := [] |} in
  openai_workflow.generate_script_outline sample.responses_create
    sample.json_loads sample.workflow [str "a transcript"] (str "a brief") []
    = (Ok [plan], []) /\
  [plan] <> [].
Proof.
  split; [vm_compute; reflexivity|].
  apply (outline_plans_come_from_segments sample.World sample.responses_create
           sample.json_loads sample.workflow [str "a transcript"]
           (str "a brief")
           [ {| openai_utils.title := PyStr (str "Intro");
                openai_utils.summary := PyStr (str "");
                openai_utils.script := PyStr (str "");
                openai_utils.keywords := [] |} ] [] []).
  vm_compute. reflexivity.
Defined.

(** X18 on a sample: a parser that accepts nothing. *)
Lemma outline_failures_witness :
  sample.responses_create sample.workflow.(openai_workflow.model)
    openai_workflow.system_prompt
    (openai_workflow.user_prompt (join [NL] [str "a transcript"])
                                 (str "a brief")) []
    = (Ok sample.answer, []) /\
  openai_workflow.generate_script_outline sample.responses_create
    sample.no_json sample.workflow [str "a transcript"] (str "a brief") []
    = (Err (ValueError (str "OpenAI response was not valid JSON")), []).
Proof.
  split; [vm_compute; reflexivity|].
  apply (outline_failures sample.World sample.responses_create sample.no_json
           sample.workflow [str "a transcript"] (str "a brief")
           sample.answer [] []);
    [vm_compute; reflexivity|reflexivity].
Defined.
